(** * Directory-watching media import of MediaCMS: a shallow embedding

    Two watch strategies are modelled:
    - the poll/scan command [files/management/commands/watch_media_directories.py]
      with its import ledger [MediaAutoImportRecord] ([files/models/auto_import.py]);
    - the event-driven monitor [files/directory_monitor.py] (debounced handler,
      checksum deduplication, relocation of processed files, [DirectoryMonitor.start]).

    Database tables are finite maps or lists, the filesystem is a list of
    regular files plus a list of directories, clock readings are passed in. *)

From stdpp Require Import base gmap strings list.
From Stdlib Require Import ZArith Lia Ascii String Sorted.

Local Open Scope Z_scope.

Infix "+s+" := String.append (at level 60, right associativity).

(* ------------------------------------------------------------------ *)
(** ** Path and string helpers (os.path / pathlib / str methods) *)

Definition slash : ascii := "/"%char.
Definition dot : ascii := "."%char.

(** [s.rfind(c)] on a list of characters: index of the last occurrence. *)
Fixpoint rfind_go (c : ascii) (l : list ascii) (i : nat) (acc : option nat) : option nat :=
  match l with
  | [] => acc
  | x :: r => rfind_go c r (S i) (if Ascii.eqb x c then Some i else acc)
  end.

Definition rfind (c : ascii) (s : string) : option nat :=
  rfind_go c (list_ascii_of_string s) 0 None.

Definition str_take (n : nat) (s : string) : string := String.substring 0 n s.
Definition str_drop (n : nat) (s : string) : string :=
  String.substring n (String.length s - n) s.

(** [os.path.basename]: the part after the last ['/']. *)
Definition basename (p : string) : string :=
  match rfind slash p with
  | Some i => str_drop (S i) p
  | None => p
  end.

(** [os.path.dirname]: the part before the last ['/'] (["/"] for a path
    directly below the root). *)
Definition dirname (p : string) : string :=
  match rfind slash p with
  | Some O => "/"
  | Some i => str_take i p
  | None => ""
  end.

(** [os.path.splitext] applied to a file name (no separator inside): the
    extension starts at the last dot, unless every character before that dot
    is itself a dot (leading dots belong to the name). *)
Definition splitext (name : string) : string * string :=
  match rfind dot name with
  | Some i =>
      if forallb (fun c => Ascii.eqb c dot) (list_ascii_of_string (str_take i name))
      then (name, ""%string)
      else (str_take i name, str_drop i name)
  | None => (name, ""%string)
  end.

(** [pathlib.PurePath.suffix] of a file name. *)
Definition path_suffix (name : string) : string :=
  match rfind dot name with
  | Some i =>
      if (0 <? i)%nat && (i <? String.length name - 1)%nat
      then str_drop i name else ""%string
  | None => ""%string
  end.

Definition lower_ascii (c : ascii) : ascii :=
  let n := nat_of_ascii c in
  if (65 <=? n)%nat && (n <=? 90)%nat then ascii_of_nat (n + 32) else c.

(** [str.lower()] on ASCII text. *)
Definition lower (s : string) : string :=
  string_of_list_ascii (map lower_ascii (list_ascii_of_string s)).

(** [str.lstrip(".")]. *)
Fixpoint lstrip_dots (s : string) : string :=
  match s with
  | String c r => if Ascii.eqb c dot then lstrip_dots r else s
  | EmptyString => EmptyString
  end.

(** [pathlib.Path(a) / b]. *)
Definition join (a b : string) : string := a +s+ "/" +s+ b.

(* ------------------------------------------------------------------ *)
(** ** Data model *)

(** A regular file on disk; [fpath] is already resolved (absolute, no links). *)
Record FileEntry := mkFile {
  fpath : string;
  content : string;
  readable : bool
}.

Definition file_size (f : FileEntry) : Z := Z.of_nat (String.length (content f)).

(** A row of [files.Media], as far as the import code sees it. Primary keys
    are positive (Django's AutoField starts at 1). [m_src] is a ghost field:
    the watched file the row was created from. *)
Record MediaRec := mkMedia {
  m_id : positive;
  m_md5 : string;
  m_user : string;
  m_title : string;
  m_src : string
}.

(** [MediaAutoImportRecord] without its key [source_path]. *)
Record LedgerEntry := mkEntry {
  config_name : string;
  media : option positive;     (* media_id, nullable foreign key *)
  md5sum : option string;
  imported_at : option Z;
  last_seen : Z                (* auto_now *)
}.

(** The ledger table: [source_path] is unique, so a map keyed by it. *)
Abbreviation Ledger := (gmap string LedgerEntry).

Record World := mkWorld {
  ledger : Ledger;
  medias : list MediaRec;
  files : list FileEntry;
  dirs : list string;
  users : list string;
  stdout : list string;
  next_id : positive;          (* the primary-key sequence of [files.Media] *)
  readonly_dirs : list string  (* directories in which no entry can be created or
                                  removed: [os.access(d, os.W_OK)] is false *)
}.

Definition set_ledger (l : Ledger) (w : World) : World :=
  mkWorld l (medias w) (files w) (dirs w) (users w) (stdout w) (next_id w) (readonly_dirs w).
Definition set_files (fs : list FileEntry) (w : World) : World :=
  mkWorld (ledger w) (medias w) fs (dirs w) (users w) (stdout w) (next_id w) (readonly_dirs w).
Definition set_dirs (ds : list string) (w : World) : World :=
  mkWorld (ledger w) (medias w) (files w) ds (users w) (stdout w) (next_id w) (readonly_dirs w).
Definition emit (line : string) (w : World) : World :=
  mkWorld (ledger w) (medias w) (files w) (dirs w) (users w) (stdout w ++ [line]) (next_id w)
    (readonly_dirs w).

(** [os.access(d, os.W_OK)]: entries of [d] can be created and removed. *)
Definition writable (w : World) (d : string) : bool :=
  negb (existsb (String.eqb d) (readonly_dirs w)).

(** [MediaAutoImportRecord.is_imported]: [bool(self.media_id)]. *)
Definition is_imported (e : LedgerEntry) : bool :=
  match media e with Some _ => true | None => false end.

(** Modelled from the spec: CreateMedia ([Media.objects.create] and the
    [media_init] hook of [files/models], not under src/). Creating from a
    file opens it (an unreadable file raises); the new row gets the next
    primary key from the sequence and the content checksum, the content hash being modelled
    by the content itself. *)
Definition create_media (user title : string) (f : FileEntry) (w : World)
  : option (MediaRec * World) :=
  if readable f then
    let m := mkMedia (next_id w) (content f) user title (fpath f) in
    Some (m, mkWorld (ledger w) (m :: medias w) (files w) (dirs w) (users w)
                     (stdout w) (Pos.succ (next_id w)) (readonly_dirs w))
  else None.



(* ------------------------------------------------------------------ *)
(** ** Poll/scan strategy: [watch_media_directories.Command] *)

Inductive result (A : Type) := Ok (a : A) | CommandError (msg : string).
Arguments Ok {A} a.
Arguments CommandError {A} msg.

(** One entry of [MEDIA_AUTO_IMPORT_DIRECTORIES] (the keys the scan reads;
    channel, categories, tags and the media flags are not modelled). *)
Record WatchConfig := mkConfig {
  c_path : string;
  c_name : option string;
  c_recursive : bool;
  c_extensions : list string;
  c_delete_after : bool;
  c_user : option string
}.

Record Options := mkOptions { o_force : bool; o_dry_run : bool }.

(** Whether [p] is listed by [base.rglob("*")] (recursive) or [base.glob("*")]. *)
Definition under (base : string) (recursive : bool) (p : string) : bool :=
  let pre := base +s+ "/" in
  String.prefix pre p &&
  (recursive || negb (existsb (Ascii.eqb slash)
                        (list_ascii_of_string (str_drop (String.length pre) p)))).

(** [_iter_files]: the regular files below [base]. *)
Definition iter_files (fs : list FileEntry) (base : string) (recursive : bool)
  : list FileEntry :=
  List.filter (fun f => under base recursive (fpath f)) fs.

(** [_normalise_extensions]. *)
Definition normalise_extensions (exts : list string) : list string :=
  map (fun e => lstrip_dots (lower e)) exts.

(** The extension test of line 96, negated: [True] when the file is kept. *)
Definition ext_ok (exts : list string) (f : FileEntry) : bool :=
  match exts with
  | [] => true
  | _ => existsb (String.eqb (lstrip_dots (lower (path_suffix (basename (fpath f)))))) exts
  end.

(** [MediaAutoImportRecord.objects.get_or_create(source_path=..., defaults=...)]. *)
Definition get_or_create (l : Ledger) (sp cfg : string) (now : Z) : LedgerEntry * bool :=
  match l !! sp with
  | Some e => (e, false)
  | None => (mkEntry cfg None None None now, true)
  end.

(** Lines 105-111: refresh [last_seen], rewrite [config_name] when it differs. *)
Definition touch (e : LedgerEntry) (cfg : string) (now : Z) : LedgerEntry :=
  if String.eqb (config_name e) cfg
  then mkEntry (config_name e) (media e) (md5sum e) (imported_at e) now
  else mkEntry cfg (media e) (md5sum e) (imported_at e) now.

(** Lines 100-111: the ledger after observing [sp], the record, [created]. *)
Definition observe (l : Ledger) (sp cfg : string) (now : Z) : Ledger * LedgerEntry * bool :=
  let '(e, created) := get_or_create l sp cfg now in
  if created then (<[sp := e]> l, e, true)
  else let e' := touch e cfg now in (<[sp := e']> l, e', false).

(** The media reference of the ledger entry of [sp], if any. *)
Definition media_ref (l : Ledger) (sp : string) : option positive :=
  match l !! sp with Some e => media e | None => None end.

(** Lines 137-141: the terminal fields are assigned and saved. *)
Definition mark_imported (e : LedgerEntry) (m : MediaRec) (cfg : string) (now : Z)
  : LedgerEntry :=
  mkEntry cfg (Some (m_id m)) (Some (m_md5 m)) (Some now) now.

(** [helpers.rm_file(source_path)]: removing the file fails, silently, when
    its directory is read-only. *)
Definition remove_file (sp : string) (w : World) : World :=
  if writable w (dirname sp)
  then set_files (List.filter (fun g => negb (String.eqb (fpath g) sp)) (files w)) w
  else w.

(** The body of the loop of [process_config] (lines 96-146) for one file. *)
Definition process_file (cfg_name user : string) (exts : list string)
  (delete_after : bool) (opts : Options) (now : Z) (w : World) (f : FileEntry)
  : World :=
  if negb (ext_ok exts f) then w else
  let sp := fpath f in
  let '(l, record, _) := observe (ledger w) sp cfg_name now in
  let w := set_ledger l w in
  if is_imported record && negb (o_force opts) then w
  else if o_dry_run opts then emit ("[dry-run] Would import " +s+ sp) w
  else
    match create_media user (basename sp) f w with
    | None => w                                  (* logged to stderr, next file *)
    | Some (m, w) =>
        let w := set_ledger (<[sp := mark_imported record m cfg_name now]> (ledger w)) w in
        let w := emit ("Imported " +s+ sp) w in
        if delete_after then remove_file sp w else w
    end.

(** [_resolve_user]: the user table is a list of identifiers, each standing
    for a user's username or email. *)
Definition resolve_user (cfg : WatchConfig) (w : World) : result string :=
  match c_user cfg with
  | None | Some EmptyString =>
      CommandError "Watcher configuration requires a 'user' to assign media to"
  | Some u =>
      if existsb (String.eqb u) (users w) then Ok u
      else CommandError ("Cannot find user with username/email '" +s+ u +s+ "'")
  end.

(** [config.get("name") or str(path)]. *)
Definition config_name_of (cfg : WatchConfig) : string :=
  match c_name cfg with
  | Some EmptyString | None => c_path cfg
  | Some n => n
  end.

(** [Command.process_config]: one scan pass over one configured root. The
    [CommandError]s of [_resolve_channel], [_resolve_categories] and
    [_resolve_tags] (an unknown channel or category, a non-list value) are
    not modelled: the configurations used here have none of these keys. *)
Definition process_config (cfg : WatchConfig) (opts : Options) (now : Z) (w : World)
  : result World :=
  if negb (existsb (String.eqb (c_path cfg)) (dirs w))
  then CommandError ("Watch directory does not exist: " +s+ c_path cfg)
  else
    match resolve_user cfg w with
    | CommandError msg => CommandError msg
    | Ok u =>
        Ok (fold_left
              (process_file (config_name_of cfg) u
                 (normalise_extensions (c_extensions cfg)) (c_delete_after cfg) opts now)
              (iter_files (files w) (c_path cfg) (c_recursive cfg)) w)
    end.

(** One iteration of the [while True] loop of [Command.handle]: a
    [CommandError] of any configuration is re-raised (lines 60-61). *)
Fixpoint handle_once (configs : list WatchConfig) (opts : Options) (now : Z) (w : World)
  : result World :=
  match configs with
  | [] => Ok w
  | c :: cs =>
      match process_config c opts now w with
      | CommandError msg => CommandError msg
      | Ok w' => handle_once cs opts now w'
      end
  end.

(* ------------------------------------------------------------------ *)
(** ** Event-driven strategy: [directory_monitor.MediaFileHandler] *)

(** The configuration fields of a handler, with the [UPLOAD_MAX_SIZE]
    setting it reads. *)
Record Handler := mkHandler {
  h_user : string;
  h_debounce : Z;
  h_extensions : list string;         (* already lower-cased *)
  h_move_after_import : bool;
  h_processed_dir : option string;
  h_max_size : Z
}.

Definition find_file (w : World) (p : string) : option FileEntry :=
  List.find (fun f => String.eqb (fpath f) p) (files w).

Definition is_dir (w : World) (p : string) : bool := existsb (String.eqb p) (dirs w).

(** [os.path.exists]. *)
Definition path_exists (w : World) (p : string) : bool :=
  match find_file w p with Some _ => true | None => is_dir w p end.

(** The effect of [Path(d).mkdir(parents=True, exist_ok=True)] for a
    directory one level below an already known parent, when it succeeds. *)
Definition mkdir (d : string) (w : World) : World :=
  if is_dir w d then w else set_dirs (d :: dirs w) w.

(** Whether that call raises: [d] is not a directory and a regular file
    occupies it ([FileExistsError]), or its parent is read-only
    ([PermissionError]). A regular file at an ancestor of [d] makes the
    call fail too ([NotADirectoryError]); directories of the model have
    directories as parents, so that case is the first one at the level of
    the ancestor. *)
Definition mkdir_error (d : string) (w : World) : bool :=
  negb (is_dir w d) &&
  (match find_file w d with Some _ => true | None => false end ||
   negb (writable w (dirname d))).

(** [shutil.move(src, dst)]: into [dst] when it is a directory (an error if
    the name is taken there), otherwise to [dst], replacing a file there.
    [os.rename] needs both directories writable; when it fails, the file is
    copied ([copy2]: it must be readable, and the destination directory
    writable unless the destination file exists), then the source is
    unlinked, which needs its directory writable: when only that last step
    fails, the copy stays and so does the source. *)
Definition shutil_move (src dst : string) (w : World) : World :=
  match find_file w src with
  | None => w                                      (* raises; logged *)
  | Some f =>
      let real_dst := if is_dir w dst then join dst (basename src) else dst in
      if is_dir w dst && path_exists w real_dst then w  (* raises; logged *)
      else
        let copy := mkFile real_dst (content f) (readable f) in
        let moved :=
          set_files (copy :: List.filter (fun g => negb (String.eqb (fpath g) src)
                                                   && negb (String.eqb (fpath g) real_dst))
                               (files w)) w in
        if writable w (dirname src) && writable w (dirname real_dst) then moved
        else if negb (readable f) ||
                negb (writable w (dirname real_dst) ||
                      match find_file w real_dst with Some _ => true | None => false end)
        then w                                     (* copy2 raises; logged *)
        else if writable w (dirname src) then moved
        else set_files (copy :: List.filter (fun g => negb (String.eqb (fpath g) real_dst))
                                  (files w)) w     (* os.unlink raises; logged *)
  end.

(** The destination computed by [_move_processed_file] (lines 278-296);
    [ts] is [datetime.now().strftime('%Y%m%d_%H%M%S')]. *)
Definition move_target (w : World) (processed_dir file_path ts : string) (duplicate : bool)
  : string :=
  let target_dir := join processed_dir (if duplicate then "duplicates" else "imported") in
  let filename := basename file_path in
  let target_path := join target_dir filename in
  if path_exists w target_path
  then let '(name, ext) := splitext filename in
       join target_dir (name +s+ "_" +s+ ts +s+ ext)
  else target_path.

(** [_move_processed_file]. *)
Definition move_processed_file (h : Handler) (ts : string) (file_path : string)
  (duplicate : bool) (w : World) : World :=
  match h_processed_dir h with
  | None | Some EmptyString => w
  | Some d =>
      let target_dir := join d (if duplicate then "duplicates" else "imported") in
      (* line 286, [target_dir.mkdir(parents=True, exist_ok=True)]: when it
         raises, the error is logged and the file is not moved *)
      if mkdir_error d w || mkdir_error target_dir (mkdir d w) then w
      else
        let w := mkdir target_dir (mkdir d w) in
        shutil_move file_path (move_target w d file_path ts duplicate) w
  end.

Definition relocation_on (h : Handler) : bool :=
  h_move_after_import h &&
  match h_processed_dir h with None | Some EmptyString => false | Some _ => true end.

(** [_calculate_md5]: [None] when the file cannot be read. *)
Definition calculate_md5 (f : FileEntry) : option string :=
  if readable f then Some (content f) else None.

(** Which branch of [_import_media_file] ended the call (its log line). *)
Inductive Outcome :=
  | Gone | NotAFile | Empty | TooLarge | NoChecksum | DuplicateSkipped | Imported | Failed.

(** [_import_media_file] ([ts] is the clock reading used by a relocation).
    The copy that [media.media_file.save] (line 250) writes into the media
    storage is not part of [files], which holds the watched and processed
    trees: [create_media] stands for lines 234-253. *)
Definition import_media_file (h : Handler) (ts : string) (file_path : string) (w : World)
  : World * Outcome :=
  match find_file w file_path with
  | None => (w, if is_dir w file_path then NotAFile else Gone)
  | Some f =>
      let file_size := file_size f in
      if file_size =? 0 then (w, Empty)
      else if h_max_size h <? file_size then (w, TooLarge)
      else
        match calculate_md5 f with
        | None => (w, NoChecksum)
        | Some md5 =>
            match List.find (fun m => String.eqb (m_md5 m) md5) (medias w) with
            | Some _ =>
                ((if relocation_on h then move_processed_file h ts file_path true w else w),
                 DuplicateSkipped)
            | None =>
                let title := fst (splitext (basename file_path)) in
                match create_media (h_user h) title f w with
                | None => (w, Failed)
                | Some (_, w) =>
                    ((if relocation_on h then move_processed_file h ts file_path false w else w),
                     Imported)
                end
            end
        end
  end.

(** *** The debounce state machine ([on_created], [on_modified] and one
    iteration of the [_process_pending_files] worker loop) *)
Module Debounce.

(** [self.pending_files]: a dict, kept in insertion order. *)
Definition Pending := list (string * Z).

(** [self.pending_files[file_path] = t]. *)
Fixpoint set_time (p : string) (t : Z) (pend : Pending) : Pending :=
  match pend with
  | [] => [(p, t)]
  | (q, u) :: r => if String.eqb q p then (q, t) :: r else (q, u) :: set_time p t r
  end.

Definition ends_with (suf s : string) : bool :=
  (String.length suf <=? String.length s)%nat &&
  String.eqb (str_drop (String.length s - String.length suf) s) suf.

(** [_should_process_file]. *)
Definition should_process_file (exts : list string) (file_path : string) : bool :=
  let filename := basename file_path in
  let hidden := match filename with String c _ => Ascii.eqb c dot | EmptyString => false end in
  if hidden || ends_with ".tmp" filename || ends_with ".part" filename then false
  else match exts with
       | [] => true
       | _ => existsb (String.eqb (lower (snd (splitext filename)))) exts
       end.

(** Watchdog events delivered to the handler, and the worker's wake-ups. *)
Inductive fs_event :=
  | Created (p : string) (directory : bool) (t : Z)
  | Modified (p : string) (directory : bool) (t : Z)
  | Tick (now : Z).

Definition ev_time (e : fs_event) : Z :=
  match e with Created _ _ t | Modified _ _ t | Tick t => t end.

(** One worker iteration: paths whose age reaches the window leave the
    pending dict and are handed to [_import_media_file] (the settle
    notifications, stamped with the tick's clock reading). *)
Definition tick (W now : Z) (pend : Pending) : Pending * list (string * Z) :=
  (List.filter (fun '(_, t) => negb (W <=? now - t)) pend,
   map (fun '(q, _) => (q, now)) (List.filter (fun '(_, t) => W <=? now - t) pend)).

(** [on_created] and [on_modified] do the same to the pending dict. *)
Definition on_event (exts : list string) (p : string) (directory : bool) (t : Z)
  (pend : Pending) : Pending :=
  if directory then pend
  else if negb (should_process_file exts p) then pend
  else set_time p t pend.

Definition step (exts : list string) (W : Z) (pend : Pending) (e : fs_event)
  : Pending * list (string * Z) :=
  match e with
  | Created p d t | Modified p d t => (on_event exts p d t pend, [])
  | Tick now => tick W now pend
  end.

Fixpoint run (exts : list string) (W : Z) (pend : Pending) (es : list fs_event)
  : Pending * list (string * Z) :=
  match es with
  | [] => (pend, [])
  | e :: es' =>
      let '(pend1, out1) := step exts W pend e in
      let '(pend2, out2) := run exts W pend1 es' in
      (pend2, out1 ++ out2)
  end.

(** Time of an event of a file at path [p] (directory events excluded). *)
Definition touch_time (p : string) (e : fs_event) : option Z :=
  match e with
  | Created q false t | Modified q false t => if String.eqb q p then Some t else None
  | _ => None
  end.

Fixpoint touch_times (p : string) (es : list fs_event) : list Z :=
  match es with
  | [] => []
  | e :: es' =>
      match touch_time p e with
      | Some t => t :: touch_times p es'
      | None => touch_times p es'
      end
  end.

(** Consecutive times less than [W] apart. *)
Fixpoint spaced (W : Z) (ts : list Z) : Prop :=
  match ts with
  | t1 :: ((t2 :: _) as r) => t2 - t1 < W /\ spaced W r
  | _ => True
  end.

Definition count_path (p : string) (out : list (string * Z)) : nat :=
  List.length (List.filter (fun '(q, _) => String.eqb q p) out).

Definition p_entries (p : string) (pend : Pending) : Pending :=
  List.filter (fun '(q, _) => String.eqb q p) pend.

End Debounce.

(* ------------------------------------------------------------------ *)
(** ** [DirectoryMonitor.start] *)

Record MonitorSettings := mkSettings {
  watch_dirs : list string;            (* MEDIA_WATCH_DIRS *)
  watch_user : string;                 (* MEDIA_WATCH_USER *)
  move_after_import : bool;            (* MEDIA_WATCH_MOVE_AFTER_IMPORT *)
  processed_dir : string               (* MEDIA_WATCH_PROCESSED_DIR *)
}.

(** What [start] observes of the host: [os.path.exists], [os.path.isdir],
    [os.access(R_OK)], the user table, whether [mkdir] of the processed
    directory succeeds, and whether [Observer().start()] succeeds. *)
Record Env := mkEnv {
  env_exists : string -> bool;
  env_isdir : string -> bool;
  env_readable : string -> bool;
  env_users : list string;
  env_mkdir_ok : string -> bool;
  env_observer_ok : string -> bool
}.

Definition valid_dir (env : Env) (d : string) : bool :=
  env_exists env d && env_isdir env d && env_readable env d.

(** [start]: its boolean result and the directories that got an observer. *)
Definition start (s : MonitorSettings) (env : Env) : bool * list string :=
  match watch_dirs s with
  | [] => (false, [])
  | _ =>
    if String.eqb (watch_user s) "" then (false, [])
    else if negb (existsb (String.eqb (watch_user s)) (env_users env)) then (false, [])
    else
      let valid_dirs := List.filter (valid_dir env) (watch_dirs s) in
      match valid_dirs with
      | [] => (false, [])
      | _ =>
        if move_after_import s &&
           (String.eqb (processed_dir s) "" || negb (env_mkdir_ok env (processed_dir s)))
        then (false, [])
        else
          match List.filter (env_observer_ok env) valid_dirs with
          | [] => (false, [])
          | observers => (true, observers)
          end
      end
  end.

(* ------------------------------------------------------------------ *)
(** ** [monitor_directories --test]: [Command._test_configuration] *)

Definition quote : string := String (ascii_of_nat 34) EmptyString.

(** The checks of the configured directories (lines 116-126): a missing
    path or a non-directory is a warning, an unreadable directory an error.
    The result is (errors, warnings). *)
Fixpoint check_dirs (env : Env) (ds : list string) : list string * list string :=
  match ds with
  | [] => ([], [])
  | d :: ds' =>
      let '(es, ws) := check_dirs env ds' in
      if negb (env_exists env d) then (es, ("Directory does not exist: " +s+ d) :: ws)
      else if negb (env_isdir env d) then (es, ("Path is not a directory: " +s+ d) :: ws)
      else if negb (env_readable env d) then (("Directory is not readable: " +s+ d) :: es, ws)
      else (es, ws)
  end.

(** [_test_configuration]: the errors and the warnings it reports;
    "Configuration is valid!" is printed when there is no error.
    [env_writable] is [os.access(processed_dir, os.W_OK)]. *)
Definition test_configuration (s : MonitorSettings) (env : Env) (env_writable : string -> bool)
  : list string * list string :=
  let '(dir_errors, warnings) :=
    match watch_dirs s with
    | [] => (["MEDIA_WATCH_DIRS is not configured or empty"], [])
    | ds => check_dirs env ds
    end in
  let user_errors :=
    if String.eqb (watch_user s) "" then ["MEDIA_WATCH_USER is not configured"]
    else if existsb (String.eqb (watch_user s)) (env_users env) then []
    else ["User " +s+ quote +s+ watch_user s +s+ quote +s+ " does not exist"] in
  let processed_errors :=
    if move_after_import s then
      if String.eqb (processed_dir s) "" then
        ["MEDIA_WATCH_MOVE_AFTER_IMPORT is enabled but MEDIA_WATCH_PROCESSED_DIR is not set"]
      else if env_exists env (processed_dir s) then
        if negb (env_isdir env (processed_dir s)) then
          ["MEDIA_WATCH_PROCESSED_DIR is not a directory: " +s+ processed_dir s]
        else if negb (env_writable (processed_dir s)) then
          ["MEDIA_WATCH_PROCESSED_DIR is not writable: " +s+ processed_dir s]
        else []
      else []
    else [] in
  (dir_errors ++ user_errors ++ processed_errors, warnings).

(* ------------------------------------------------------------------ *)
(** ** Concrete scenarios *)

(** The world after one scan pass ([w] itself when the pass raises). *)
Definition scan (cfg : WatchConfig) (opts : Options) (now : Z) (w : World) : World :=
  match process_config cfg opts now w with Ok w' => w' | CommandError _ => w end.

Definition plain : Options := mkOptions false false.
Definition forced : Options := mkOptions true false.
Definition dry : Options := mkOptions false true.

(** Root [/w] owned by [alice], watched shallowly, every extension. *)
Definition cfg_w : WatchConfig := mkConfig "/w" None false [] false (Some "alice").

Definition world_of (fs : list FileEntry) : World :=
  mkWorld ∅ [] fs ["/w"] ["alice"] [] 1%positive [].

(** [/w/a.jpg] with content "X". *)
Definition w_a : World := world_of [mkFile "/w/a.jpg" "X" true].
(** [/w/a.jpg] and [/w/b.jpg], byte-identical. *)
Definition w_ab : World := world_of [mkFile "/w/a.jpg" "X" true; mkFile "/w/b.jpg" "X" true].
(** [/w/empty.jpg] of zero bytes. *)
Definition w_empty : World := world_of [mkFile "/w/empty.jpg" "" true].
(** Three eligible files. *)
Definition w_abc : World :=
  world_of [mkFile "/w/a.jpg" "A" true; mkFile "/w/b.jpg" "B" true; mkFile "/w/c.jpg" "C" true].

(** A handler with the default [UPLOAD_MAX_SIZE] (800 * 1024 * 1000 * 5),
    no relocation. *)
Definition h_plain : Handler := mkHandler "alice" 5 [] false None (800 * 1024 * 1000 * 5).

(** A handler whose size ceiling is one byte. *)
Definition h_tiny : Handler := mkHandler "alice" 5 [] false None 1.

(** A configuration whose root does not exist. *)
Definition cfg_missing : WatchConfig := mkConfig "/missing" None false [] false (Some "alice").

(** Monitor settings with one existing and one missing directory. *)
Definition settings_mixed : MonitorSettings := mkSettings ["/w"; "/missing"] "alice" false "".
Definition env_w : Env :=
  mkEnv (String.eqb "/w") (String.eqb "/w") (fun _ => true) ["alice"] (fun _ => true) (fun _ => true).

(** A burst on [/w/a.mp4]: created at 0, modified at 3 and 6, the worker
    waking at 1, 4, 7, 11 and 12; the window is 5. *)
Definition burst_pre : list Debounce.fs_event :=
  [Debounce.Created "/w/a.mp4" false 0; Debounce.Tick 1; Debounce.Modified "/w/a.mp4" false 3;
   Debounce.Tick 4; Debounce.Modified "/w/a.mp4" false 6].
Definition burst_post : list Debounce.fs_event :=
  [Debounce.Tick 7; Debounce.Tick 11; Debounce.Tick 12].

(** A watch list whose only directory is missing. *)
Definition settings_missing : MonitorSettings := mkSettings ["/missing"] "alice" false "".

(** [/w] readable, [/locked] an existing directory that cannot be read. *)
Definition settings_locked : MonitorSettings := mkSettings ["/locked"; "/w"] "alice" false "".
Definition env_locked : Env :=
  mkEnv (fun d => String.eqb d "/w" || String.eqb d "/locked")
        (fun d => String.eqb d "/w" || String.eqb d "/locked")
        (String.eqb "/w") ["alice"] (fun _ => true) (fun _ => true).

(** [/w/b.jpg], unreadable. *)
Definition w_unreadable : World := world_of [mkFile "/w/b.jpg" "B" false].

(** [/w/a.jpg] to be relocated to [/done/imported], where [a.jpg] is taken. *)
Definition w_coll : World :=
  set_files (mkFile "/done/imported/a.jpg" "old" true :: files w_a)
    (set_dirs ("/done/imported" :: "/done" :: dirs w_a) w_a).


(** A handler relocating to [/done]. *)
Definition h_move : Handler := mkHandler "alice" 5 [] true (Some "/done") (800 * 1024 * 1000 * 5).

(** The report line of a dry run (line 117). *)
Definition dry_line (sp : string) : string := "[dry-run] Would import " +s+ sp.

(* ================================================================== *)
(** * Properties *)

(* ------------------------------------------------------------------ *)
(** ** The ledger operations of the scan *)

Lemma observe_spec (l : Ledger) (sp cfg : string) (now : Z) l' e' created :
  observe l sp cfg now = (l', e', created) ->
  l' = <[sp := e']> l /\ config_name e' = cfg /\ last_seen e' = now /\
  (l !! sp = None -> e' = mkEntry cfg None None None now /\ created = true) /\
  (forall e, l !! sp = Some e ->
     media e' = media e /\ md5sum e' = md5sum e /\ imported_at e' = imported_at e /\
     created = false).
Proof.
  unfold observe, get_or_create.
  destruct (l !! sp) as [e|] eqn:E; intros H.
  - assert (Hc : config_name (touch e cfg now) = cfg /\ last_seen (touch e cfg now) = now /\
                 media (touch e cfg now) = media e /\ md5sum (touch e cfg now) = md5sum e /\
                 imported_at (touch e cfg now) = imported_at e).
    { unfold touch; destruct (String.eqb (config_name e) cfg) eqn:Ec; simpl;
        [apply String.eqb_eq in Ec|]; tauto. }
    inversion H; subst; clear H.
    destruct Hc as (H1 & H2 & H3 & H4 & H5).
    split; [reflexivity|]. split; [assumption|]. split; [assumption|]. split.
    + intros Hn; discriminate.
    + intros e0 He0; inversion He0; subst; repeat split; assumption.
  - inversion H; subst; clear H; simpl; repeat split; congruence.
Qed.

Lemma set_ledger_ledger l w : ledger (set_ledger l w) = l.
Proof. reflexivity. Qed.

Lemma create_media_spec u t f w m w' :
  create_media u t f w = Some (m, w') ->
  m = mkMedia (next_id w) (content f) u t (fpath f) /\
  ledger w' = ledger w /\ medias w' = m :: medias w /\ files w' = files w /\
  dirs w' = dirs w /\ next_id w' = Pos.succ (next_id w).
Proof.
  unfold create_media; destruct (readable f); intros H; inversion H; subst; auto.
  repeat split; reflexivity.
Qed.

Lemma remove_file_ledger sp w : ledger (remove_file sp w) = ledger w.
Proof. unfold remove_file. destruct (writable w (dirname sp)); reflexivity. Qed.

Lemma remove_file_medias sp w : medias (remove_file sp w) = medias w.
Proof. unfold remove_file. destruct (writable w (dirname sp)); reflexivity. Qed.

Lemma remove_file_next_id sp w : next_id (remove_file sp w) = next_id w.
Proof. unfold remove_file. destruct (writable w (dirname sp)); reflexivity. Qed.

Lemma remove_file_stdout sp w : stdout (remove_file sp w) = stdout w.
Proof. unfold remove_file. destruct (writable w (dirname sp)); reflexivity. Qed.

(** The loop body never loses the media reference of an imported path and
    creates no media from it, when [--force] is off. *)
Lemma process_file_keeps_imported cfg u exts del opts now w f p m :
  o_force opts = false ->
  media_ref (ledger w) p = Some m ->
  media_ref (ledger (process_file cfg u exts del opts now w f)) p = Some m /\
  exists fresh, medias (process_file cfg u exts del opts now w f) = fresh ++ medias w /\
                Forall (fun x => m_src x <> p) fresh.
Proof.
  intros Hforce Hm. unfold process_file.
  destruct (negb (ext_ok exts f)).
  { split; [exact Hm | exists []; split; [reflexivity | constructor]]. }
  destruct (observe (ledger w) (fpath f) cfg now) as [[l record] c] eqn:Hobs.
  apply observe_spec in Hobs as (-> & _ & _ & Hnew & Hold).
  destruct (String.eq_dec (fpath f) p) as [<-|Hne].
  - (* the imported path itself: skipped *)
    unfold media_ref in Hm.
    destruct (ledger w !! fpath f) as [e|] eqn:E; [|discriminate].
    destruct (Hold e eq_refl) as (Hme & _ & _ & _).
    assert (Hi : is_imported record = true) by (unfold is_imported; rewrite Hme, Hm; reflexivity).
    rewrite Hi, Hforce; simpl.
    split.
    + unfold media_ref; rewrite lookup_insert_eq; rewrite Hme; exact Hm.
    + exists []; split; [reflexivity | constructor].
  - assert (Hl : media_ref (<[fpath f := record]> (ledger w)) p = Some m)
      by (unfold media_ref; rewrite lookup_insert_ne by congruence; exact Hm).
    destruct (is_imported record && negb (o_force opts)).
    { split; [exact Hl | exists []; split; [reflexivity | constructor]]. }
    destruct (o_dry_run opts).
    { split; [exact Hl | exists []; split; [reflexivity | constructor]]. }
    destruct (create_media u (basename (fpath f)) f
                (set_ledger (<[fpath f := record]> (ledger w)) w)) as [[mm w1]|] eqn:Hc.
    2:{ split; [exact Hl | exists []; split; [reflexivity | constructor]]. }
    apply create_media_spec in Hc as (-> & Hl1 & Hm1 & _).
    simpl in Hl1, Hm1.
    assert (Hl2 : media_ref (<[fpath f := mark_imported record
                   (mkMedia (next_id w) (content f) u (basename (fpath f)) (fpath f)) cfg now]>
                   (ledger w1)) p = Some m)
      by (unfold media_ref; rewrite lookup_insert_ne by congruence; rewrite Hl1; exact Hl).
    destruct del; rewrite ?remove_file_ledger, ?remove_file_medias; simpl.
    + split; [exact Hl2|]. exists [mkMedia (next_id w) (content f) u (basename (fpath f)) (fpath f)].
      split; [rewrite Hm1; reflexivity | constructor; [simpl; congruence | constructor]].
    + split; [exact Hl2|]. exists [mkMedia (next_id w) (content f) u (basename (fpath f)) (fpath f)].
      split; [rewrite Hm1; reflexivity | constructor; [simpl; congruence | constructor]].
Qed.

Lemma fold_keeps_imported cfg u exts del opts now p m (fs : list FileEntry) :
  o_force opts = false ->
  forall w, media_ref (ledger w) p = Some m ->
  media_ref (ledger (fold_left (process_file cfg u exts del opts now) fs w)) p = Some m /\
  exists fresh, medias (fold_left (process_file cfg u exts del opts now) fs w) = fresh ++ medias w /\
                Forall (fun x => m_src x <> p) fresh.
Proof.
  intros Hforce. induction fs as [|f fs IH]; intros w Hm; simpl.
  - split; [exact Hm | exists []; split; [reflexivity | constructor]].
  - destruct (process_file_keeps_imported cfg u exts del opts now w f p m Hforce Hm)
      as (Hm1 & fresh1 & Heq1 & Hf1).
    destruct (IH _ Hm1) as (Hm2 & fresh2 & Heq2 & Hf2).
    split; [exact Hm2|]. exists (fresh2 ++ fresh1).
    split; [rewrite Heq2, Heq1, app_assoc; reflexivity | apply Forall_app; auto].
Qed.

Lemma process_config_keeps_imported cfg opts now w w' p m :
  o_force opts = false ->
  process_config cfg opts now w = Ok w' ->
  media_ref (ledger w) p = Some m ->
  media_ref (ledger w') p = Some m /\
  exists fresh, medias w' = fresh ++ medias w /\ Forall (fun x => m_src x <> p) fresh.
Proof.
  intros Hforce Hpc Hm. unfold process_config in Hpc.
  destruct (negb _); [discriminate|].
  destruct (resolve_user cfg w) as [u|msg]; [|discriminate].
  inversion Hpc; subst. apply fold_keeps_imported; assumption.
Qed.



(* ------------------------------------------------------------------ *)
(** ** Claims on the poll/scan strategy *)

(** C1: running the scan pass twice over the same root without [--force]:
    for every path whose ledger entry references media [m] after the first
    pass, the second pass keeps that reference and every media row it
    creates comes from another path. *)
Theorem poll_scan_idempotent cfg opts now1 now2 w w1 w2 p m :
  o_force opts = false ->
  process_config cfg opts now1 w = Ok w1 ->
  process_config cfg opts now2 w1 = Ok w2 ->
  media_ref (ledger w1) p = Some m ->
  media_ref (ledger w2) p = Some m /\
  exists fresh, medias w2 = fresh ++ medias w1 /\ Forall (fun x => m_src x <> p) fresh.
Proof.
  intros Hforce _ H2 Hm. eapply process_config_keeps_imported; eassumption.
Qed.

Lemma poll_scan_idempotent_witness :
  media_ref (ledger (scan cfg_w plain 2 (scan cfg_w plain 1 w_a))) "/w/a.jpg" = Some 1%positive /\
  exists fresh, medias (scan cfg_w plain 2 (scan cfg_w plain 1 w_a))
                  = fresh ++ medias (scan cfg_w plain 1 w_a) /\
                Forall (fun x => m_src x <> "/w/a.jpg"%string) fresh.
Proof.
  apply (poll_scan_idempotent cfg_w plain 1 2 w_a (scan cfg_w plain 1 w_a)
           (scan cfg_w plain 2 (scan cfg_w plain 1 w_a)) "/w/a.jpg" 1%positive).
  - reflexivity.
  - vm_compute. reflexivity.
  - vm_compute. reflexivity.
  - vm_compute. reflexivity.
Defined.

(** C7: the ledger get-or-create of the scan (lines 100-111) is an upsert
    keyed on the source path: a missing entry is created with the caller's
    config name, an existing one gets the caller's config name, its
    last-seen time is set in every case, its terminal fields are kept, and
    no other path's entry changes. *)
Theorem get_or_create_upsert (l : Ledger) sp cfg now l' e' created :
  observe l sp cfg now = (l', e', created) ->
  l' !! sp = Some e' /\ config_name e' = cfg /\ last_seen e' = now /\
  (l !! sp = None -> created = true /\ media e' = None) /\
  (forall e, l !! sp = Some e ->
     created = false /\ media e' = media e /\ md5sum e' = md5sum e /\
     imported_at e' = imported_at e) /\
  (forall q, q <> sp -> l' !! q = l !! q).
Proof.
  intros H. apply observe_spec in H as (-> & Hc & Ht & Hnew & Hold).
  split; [apply lookup_insert_eq|]. split; [exact Hc|]. split; [exact Ht|]. split.
  - intros Hn. destruct (Hnew Hn) as (-> & ->). auto.
  - split.
    + intros e He. destruct (Hold e He) as (? & ? & ? & ?). auto.
    + intros q Hq. apply lookup_insert_ne. congruence.
Qed.

Lemma get_or_create_upsert_witness :
  let l := {["/w/a.jpg" := mkEntry "old" (Some 1%positive) (Some "X") (Some 1) 1]} : Ledger in
  let r := observe l "/w/a.jpg" "new" 9 in
  (r.1.1 !! "/w/a.jpg" = Some r.1.2 /\ config_name r.1.2 = "new" /\ last_seen r.1.2 = 9 /\
   (l !! "/w/a.jpg" = None -> r.2 = true /\ media r.1.2 = None) /\
   (forall e, l !! "/w/a.jpg" = Some e ->
      r.2 = false /\ media r.1.2 = media e /\ md5sum r.1.2 = md5sum e /\
      imported_at r.1.2 = imported_at e) /\
   (forall q, q <> "/w/a.jpg" -> r.1.1 !! q = l !! q))%string.
Proof.
  intros l r. apply (get_or_create_upsert l "/w/a.jpg" "new" 9 r.1.1 r.1.2 r.2).
  reflexivity.
Defined.






(** C2 (code defect, poll/scan side): two byte-identical files under the
    root are both imported by one scan pass: the pass never compares
    checksums, unlike [_import_media_file] of the event strategy, which
    reports the second one as a duplicate. *)
Theorem poll_scan_imports_identical_content_twice :
  process_config cfg_w plain 1 w_ab = Ok (scan cfg_w plain 1 w_ab) /\
  map m_md5 (medias (scan cfg_w plain 1 w_ab)) = ["X"; "X"]%string /\
  snd (import_media_file h_plain "ts" "/w/b.jpg"
         (fst (import_media_file h_plain "ts" "/w/a.jpg" w_ab))) = DuplicateSkipped.
Proof. vm_compute. repeat split; reflexivity. Qed.

(** C3 (code defect): a dry-run pass over three new eligible files creates
    no media and prints three report lines, but it creates a ledger entry
    for each file (get-or-create runs before the dry-run test). *)
Theorem dry_run_creates_ledger_entries :
  process_config cfg_w dry 1 w_abc = Ok (scan cfg_w dry 1 w_abc) /\
  medias (scan cfg_w dry 1 w_abc) = [] /\
  List.length (stdout (scan cfg_w dry 1 w_abc)) = 3%nat /\
  ledger w_abc = ∅ /\
  ledger (scan cfg_w dry 1 w_abc) !! "/w/a.jpg" = Some (mkEntry "/w" None None None 1) /\
  ledger (scan cfg_w dry 1 w_abc) !! "/w/b.jpg" = Some (mkEntry "/w" None None None 1) /\
  ledger (scan cfg_w dry 1 w_abc) !! "/w/c.jpg" = Some (mkEntry "/w" None None None 1).
Proof. vm_compute. repeat split; reflexivity. Qed.

(** C4 (code defect, poll/scan side): the event strategy skips a zero-byte
    file, imports a file exactly at the ceiling and skips one a byte over
    it; the scan pass imports the zero-byte file: it has no size validation. *)
Theorem poll_scan_imports_empty_file :
  snd (import_media_file h_plain "ts" "/w/empty.jpg" w_empty) = Empty /\
  snd (import_media_file h_tiny "ts" "/w/a.jpg" w_a) = Imported /\
  snd (import_media_file h_tiny "ts" "/w/a.jpg" (world_of [mkFile "/w/a.jpg" "XY" true]))
    = TooLarge /\
  process_config cfg_w plain 1 w_empty = Ok (scan cfg_w plain 1 w_empty) /\
  medias (scan cfg_w plain 1 w_empty)
    = [mkMedia 1 "" "alice" "empty.jpg" "/w/empty.jpg"] /\
  media_ref (ledger (scan cfg_w plain 1 w_empty)) "/w/empty.jpg" = Some 1%positive.
Proof. vm_compute. repeat split; reflexivity. Qed.

(* ------------------------------------------------------------------ *)
(** ** Relocation of processed files *)

Lemma find_file_mkdir w d p : find_file (mkdir d w) p = find_file w p.
Proof. unfold mkdir. destruct (is_dir w d); reflexivity. Qed.

Lemma find_filter_none p (l : list FileEntry) q :
  List.find (fun g => String.eqb (fpath g) p)
    (List.filter (fun g => negb (String.eqb (fpath g) p) && negb (String.eqb (fpath g) q)) l)
  = None.
Proof.
  induction l as [|g l IH]; simpl; [reflexivity|].
  destruct (String.eqb (fpath g) p) eqn:E; simpl; [exact IH|].
  destruct (negb (String.eqb (fpath g) q)); simpl; [rewrite E|]; exact IH.
Qed.

Lemma readonly_mkdir d w : readonly_dirs (mkdir d w) = readonly_dirs w.
Proof. unfold mkdir. destruct (is_dir w d); reflexivity. Qed.

Lemma is_dir_mkdir_other d w x : x <> d -> is_dir (mkdir d w) x = is_dir w x.
Proof.
  intros Hx. unfold mkdir. destruct (is_dir w d); [reflexivity|].
  unfold is_dir; simpl. rewrite (proj2 (String.eqb_neq x d) Hx). reflexivity.
Qed.

Lemma length_append (s1 s2 : string) :
  String.length (s1 +s+ s2) = (String.length s1 + String.length s2)%nat.
Proof. induction s1 as [|c s1 IH]; simpl; [reflexivity | rewrite IH; reflexivity]. Qed.


(** When the processed root and its subdirectory can be made and every
    directory is writable, the file lands at the computed destination. *)
Lemma move_lands (h : Handler) (ts p : string) (dup : bool) (w : World) (d : string)
  (f : FileEntry) :
  h_processed_dir h = Some d -> d <> EmptyString -> find_file w p = Some f ->
  readonly_dirs w = [] -> find_file w d = None ->
  let td := join d (if dup then "duplicates" else "imported") in
  find_file w td = None ->
  let w0 := mkdir td (mkdir d w) in
  let tgt := move_target w0 d p ts dup in
  is_dir w0 tgt = false ->
  find_file (move_processed_file h ts p dup w) tgt = Some (mkFile tgt (content f) (readable f)) /\
  (p <> tgt -> find_file (move_processed_file h ts p dup w) p = None).
Proof.
  intros Hd Hne Hf Hro Hfd td Hftd w0 tgt Hdir.
  assert (Hmv : move_processed_file h ts p dup w = shutil_move p tgt w0).
  { unfold move_processed_file. rewrite Hd. destruct d as [|c d']; [contradiction|].
    assert (E1 : mkdir_error (String c d') w = false).
    { unfold mkdir_error, writable. rewrite Hfd, Hro. simpl. apply andb_false_r. }
    assert (E2 : mkdir_error td (mkdir (String c d') w) = false).
    { unfold mkdir_error, writable. rewrite find_file_mkdir, Hftd, readonly_mkdir, Hro.
      simpl. apply andb_false_r. }
    unfold td in E2. rewrite E1, E2. reflexivity. }
  assert (Hwr : forall x, writable w0 x = true).
  { intros x. unfold writable. subst w0. rewrite !readonly_mkdir, Hro. reflexivity. }
  rewrite Hmv. unfold shutil_move.
  assert (Hf0 : find_file w0 p = Some f) by (subst w0; rewrite !find_file_mkdir; exact Hf).
  rewrite Hf0, Hdir. simpl. rewrite !Hwr. simpl. unfold find_file; simpl.
  rewrite String.eqb_refl. split; [reflexivity|].
  intros Hpt. destruct (String.eqb tgt p) eqn:E.
  - apply String.eqb_eq in E. congruence.
  - apply find_filter_none.
Qed.




(* ------------------------------------------------------------------ *)
(** ** Configuration errors at start-up *)

(** C8 (counterexample): with a missing root listed before a valid one,
    the scan command raises on the first configuration and never processes
    the second, which on its own would import [/w/a.jpg]. *)
Lemma config_error_aborts_siblings :
  handle_once [cfg_missing; cfg_w] plain 1 w_a
    = CommandError "Watch directory does not exist: /missing" /\
  process_config cfg_w plain 1 w_a = Ok (scan cfg_w plain 1 w_a) /\
  List.length (medias (scan cfg_w plain 1 w_a)) = 1%nat.
Proof. vm_compute. repeat split; reflexivity. Qed.

(** C8 (as amended): in the event-driven monitor, [start] fails as a whole
    when the single configured user is not set or cannot be resolved, and
    when relocation is on but the processed directory is not set or cannot
    be created; once the user is resolved and the processed directory (if
    relocation is on) is usable, it starts an observer for exactly the
    directories that exist, are directories and are readable (and whose
    observer starts), and fails when there is none. In the scan command a
    configuration error of any configuration aborts the whole pass, later
    configurations unprocessed. *)
Theorem start_skips_invalid_dirs (s : MonitorSettings) (env : Env) (c : WatchConfig)
  (cs : list WatchConfig) (opts : Options) (now : Z) (w : World) (msg : string) :
  (watch_user s = EmptyString \/ existsb (String.eqb (watch_user s)) (env_users env) = false ->
     start s env = (false, [])) /\
  (move_after_import s = true ->
   processed_dir s = EmptyString \/ env_mkdir_ok env (processed_dir s) = false ->
     start s env = (false, [])) /\
  (watch_dirs s <> [] -> watch_user s <> EmptyString ->
   existsb (String.eqb (watch_user s)) (env_users env) = true ->
   (move_after_import s = false \/
    (processed_dir s <> EmptyString /\ env_mkdir_ok env (processed_dir s) = true)) ->
     start s env = match List.filter (env_observer_ok env)
                           (List.filter (valid_dir env) (watch_dirs s)) with
                   | [] => (false, [])
                   | obs => (true, obs)
                   end) /\
  (process_config c opts now w = CommandError msg ->
     handle_once (c :: cs) opts now w = CommandError msg).
Proof.
  split; [|split; [|split]].
  - intros Hu. unfold start. destruct (watch_dirs s); [reflexivity|].
    destruct Hu as [-> | ->]; [reflexivity|].
    destruct (String.eqb (watch_user s) ""); reflexivity.
  - intros Hm Hp. unfold start. destruct (watch_dirs s); [reflexivity|].
    destruct (String.eqb (watch_user s) ""); [reflexivity|].
    destruct (negb _); [reflexivity|].
    destruct (List.filter _ _); [reflexivity|].
    rewrite Hm. simpl andb.
    assert (E : String.eqb (processed_dir s) "" || negb (env_mkdir_ok env (processed_dir s)) = true).
    { destruct Hp as [-> | ->]; [reflexivity | apply orb_true_r]. }
    rewrite E. reflexivity.
  - intros Hdirs Huser Hknown Hproc.
    unfold start. destruct (watch_dirs s) as [|d0 ds] eqn:Ed; [contradiction|].
    rewrite <- Ed.
    assert (Hu : String.eqb (watch_user s) "" = false) by (apply String.eqb_neq; exact Huser).
    rewrite Hu, Hknown. simpl negb. cbv iota.
    destruct (List.filter (valid_dir env) (watch_dirs s)) as [|v vs]; [reflexivity|].
    destruct Hproc as [-> | [Hne Hok]].
    + reflexivity.
    + assert (Hp : String.eqb (processed_dir s) "" = false) by (apply String.eqb_neq; exact Hne).
      rewrite Hp, Hok, andb_false_r. reflexivity.
  - intros Hc. simpl. rewrite Hc. reflexivity.
Qed.

Lemma start_skips_invalid_dirs_witness :
  start settings_mixed env_w = (true, ["/w"]) /\
  start (mkSettings ["/w"] "bob" false "") env_w = (false, []) /\
  start (mkSettings ["/w"] "alice" true "/done")
        (mkEnv (String.eqb "/w") (String.eqb "/w") (fun _ => true) ["alice"]
               (fun _ => false) (fun _ => true)) = (false, []) /\
  handle_once [cfg_missing; cfg_w] plain 1 w_a
    = CommandError "Watch directory does not exist: /missing".
Proof.
  destruct (start_skips_invalid_dirs settings_mixed env_w cfg_missing [cfg_w] plain 1 w_a
              "Watch directory does not exist: /missing") as (_ & _ & H1 & H2).
  destruct (start_skips_invalid_dirs (mkSettings ["/w"] "bob" false "") env_w cfg_missing [cfg_w]
              plain 1 w_a "") as (H3 & _).
  destruct (start_skips_invalid_dirs (mkSettings ["/w"] "alice" true "/done")
              (mkEnv (String.eqb "/w") (String.eqb "/w") (fun _ => true) ["alice"]
                     (fun _ => false) (fun _ => true)) cfg_missing [cfg_w]
              plain 1 w_a "") as (_ & H4 & _).
  split; [rewrite H1; [reflexivity | discriminate | discriminate | reflexivity | left; reflexivity]|].
  split; [apply H3; right; reflexivity|].
  split; [apply H4; [reflexivity | right; reflexivity]|].
  apply H2. vm_compute. reflexivity.
Defined.

(* ------------------------------------------------------------------ *)
(** ** The debouncer *)

Module DebounceFacts.
Import Debounce.

Section PerPath.
Variable exts : list string.
Variable W : Z.
Variable p : string.
Hypothesis Hsp : should_process_file exts p = true.

Definition time_le (x y : fs_event) : Prop := ev_time x <= ev_time y.

(** At most one pending entry for [p], and if there is one, the next event
    of [p] (at [nxt]) comes less than [W] after it. *)
Definition quiet (nxt : Z) (pend : Pending) : Prop :=
  p_entries p pend = [] \/ exists tl, p_entries p pend = [(p, tl)] /\ nxt - tl < W.

Lemma p_entries_set_same (pend : Pending) (t : Z) :
  (List.length (p_entries p pend) <= 1)%nat -> p_entries p (set_time p t pend) = [(p, t)].
Proof.
  induction pend as [|[q u] r IH]; simpl; intros Hlen.
  - rewrite String.eqb_refl. reflexivity.
  - destruct (String.eqb q p) eqn:E; simpl.
    + rewrite E. simpl in Hlen. apply String.eqb_eq in E. subst q.
      f_equal. destruct (p_entries p r); [reflexivity | simpl in Hlen; lia].
    + rewrite E. apply IH. exact Hlen.
Qed.

Lemma p_entries_set_other (pend : Pending) (q : string) (t : Z) :
  q <> p -> p_entries p (set_time q t pend) = p_entries p pend.
Proof.
  intros Hq. assert (E : String.eqb q p = false) by (apply String.eqb_neq; exact Hq).
  induction pend as [|[q' u] r IH]; simpl.
  - rewrite E. reflexivity.
  - destruct (String.eqb q' q) eqn:E'; simpl.
    + apply String.eqb_eq in E'; subst. rewrite E. reflexivity.
    + destruct (String.eqb q' p); [f_equal|]; exact IH.
Qed.

Lemma p_entries_tick (now : Z) (pend : Pending) :
  p_entries p (fst (tick W now pend))
  = List.filter (fun '(_, t) => negb (W <=? now - t)) (p_entries p pend).
Proof.
  unfold tick; simpl. induction pend as [|[q u] r IH]; simpl; [reflexivity|].
  destruct (W <=? now - u) eqn:Ed; destruct (String.eqb q p) eqn:Eq; simpl;
    rewrite ?Ed, ?Eq; simpl; rewrite ?IH; reflexivity.
Qed.

Lemma count_tick (now : Z) (pend : Pending) :
  count_path p (snd (tick W now pend))
  = List.length (List.filter (fun '(_, t) => W <=? now - t) (p_entries p pend)).
Proof.
  unfold tick, count_path; simpl. induction pend as [|[q u] r IH]; simpl; [reflexivity|].
  destruct (W <=? now - u) eqn:Ed; destruct (String.eqb q p) eqn:Eq; simpl;
    rewrite ?Ed, ?Eq; simpl; rewrite ?IH; reflexivity.
Qed.

Lemma tick_stamp (now : Z) (pend : Pending) q x :
  In (q, x) (snd (tick W now pend)) -> x = now.
Proof.
  unfold tick; simpl. intros H. apply in_map_iff in H as ([q' u] & Heq & _).
  inversion Heq. reflexivity.
Qed.

Lemma count_path_app (o1 o2 : list (string * Z)) :
  count_path p (o1 ++ o2) = (count_path p o1 + count_path p o2)%nat.
Proof. unfold count_path. rewrite List.filter_app, List.length_app. reflexivity. Qed.

Lemma count_zero_not_in (o : list (string * Z)) x :
  count_path p o = 0%nat -> ~ In (p, x) o.
Proof.
  unfold count_path. induction o as [|[q y] r IH]; simpl; [tauto|].
  destruct (String.eqb q p) eqn:E; simpl; [discriminate|].
  intros H [Heq | Hin]; [inversion Heq; subst; rewrite String.eqb_refl in E; discriminate|].
  exact (IH H Hin).
Qed.

Lemma run_app (pend : Pending) (a b : list fs_event) :
  run exts W pend (a ++ b)
  = (fst (run exts W (fst (run exts W pend a)) b),
     snd (run exts W pend a) ++ snd (run exts W (fst (run exts W pend a)) b)).
Proof.
  revert pend. induction a as [|e a IH]; intros pend; simpl.
  - destruct (run exts W pend b); reflexivity.
  - destruct (step exts W pend e) as [p1 o1]. rewrite IH.
    destruct (run exts W p1 a) as [p2 o2]; simpl.
    destruct (run exts W p2 b) as [p3 o3]; simpl.
    rewrite app_assoc. reflexivity.
Qed.

Lemma step_touch (pend : Pending) e t :
  touch_time p e = Some t -> (List.length (p_entries p pend) <= 1)%nat ->
  p_entries p (fst (step exts W pend e)) = [(p, t)] /\ snd (step exts W pend e) = [].
Proof.
  intros Ht Hlen.
  destruct e as [q d t0 | q d t0 | now]; simpl in Ht |- *; try discriminate;
    (destruct d; [discriminate|]);
    (destruct (String.eqb q p) eqn:E; [|discriminate]);
    inversion Ht; subst; apply String.eqb_eq in E; subst;
    unfold on_event; rewrite Hsp; simpl; split; auto using p_entries_set_same.
Qed.

Lemma step_other (pend : Pending) e :
  touch_time p e = None -> (forall now, e <> Tick now) ->
  p_entries p (fst (step exts W pend e)) = p_entries p pend /\ snd (step exts W pend e) = [].
Proof.
  intros Ht Hnt.
  assert (Hcase : forall q d t0, touch_time p (Created q d t0) = None ->
            p_entries p (on_event exts q d t0 pend) = p_entries p pend).
  { intros q d t0 Hq. simpl in Hq. unfold on_event.
    destruct d; [reflexivity|].
    destruct (String.eqb q p) eqn:E; [discriminate|].
    apply String.eqb_neq in E.
    destruct (should_process_file exts q); simpl; [|reflexivity].
    apply p_entries_set_other; exact E. }
  destruct e as [q d t0 | q d t0 | now].
  - split; [apply Hcase; exact Ht | reflexivity].
  - split; [apply Hcase; exact Ht | reflexivity].
  - destruct (Hnt now eq_refl).
Qed.

Lemma touch_time_ev e t : touch_time p e = Some t -> ev_time e = t.
Proof.
  destruct e as [q d t0 | q d t0 | now]; simpl; try discriminate;
    destruct d; try discriminate; destruct (String.eqb q p); congruence.
Qed.

Lemma touch_times_app (a b : list fs_event) :
  touch_times p (a ++ b) = touch_times p a ++ touch_times p b.
Proof.
  induction a as [|e a IH]; simpl; [reflexivity|].
  destruct (touch_time p e); rewrite IH; reflexivity.
Qed.

Lemma hd_touch_bound (x tN : Z) (a : list fs_event) :
  Forall (fun e => x <= ev_time e) a -> x <= tN -> x <= hd tN (touch_times p a).
Proof.
  induction a as [|e a IH]; simpl; intros Hall HtN; [exact HtN|].
  inversion Hall; subst.
  destruct (touch_time p e) eqn:Et; simpl.
  - apply touch_time_ev in Et. lia.
  - apply IH; assumption.
Qed.

Lemma sorted_app_inv (l1 l2 : list fs_event) :
  StronglySorted time_le (l1 ++ l2) ->
  StronglySorted time_le l1 /\ Forall (fun x => Forall (time_le x) l2) l1.
Proof.
  induction l1 as [|x l1 IH]; simpl; intros H.
  - split; constructor.
  - apply StronglySorted_inv in H as [H Hx].
    destruct (IH H) as [H1 H2]. apply Forall_app in Hx as [Hx1 Hx2].
    split; constructor; assumption.
Qed.

Lemma spaced_tail (x : Z) (l : list Z) : spaced W (x :: l) -> spaced W l.
Proof. destruct l as [|y l]; simpl; tauto. Qed.

Lemma touch_times_cons (e : fs_event) (a : list fs_event) :
  touch_times p (e :: a)
  = match touch_time p e with Some t => t :: touch_times p a | None => touch_times p a end.
Proof. reflexivity. Qed.

(** Phase one: up to the last event of [p], no settle notification for [p]. *)
Lemma no_settle_before_last (a : list fs_event) (tN : Z) :
  forall pend,
  StronglySorted time_le a -> Forall (fun e => ev_time e <= tN) a ->
  spaced W (touch_times p a ++ [tN]) ->
  quiet (hd tN (touch_times p a)) pend ->
  count_path p (snd (run exts W pend a)) = 0%nat /\ quiet tN (fst (run exts W pend a)).
Proof.
  induction a as [|e a IH]; intros pend Hs HN Hsp' Hq; simpl.
  { split; [reflexivity | exact Hq]. }
  apply StronglySorted_inv in Hs as [Hs He]. inversion HN as [|? ? HeN HaN]; subst.
  assert (Hlen : (List.length (p_entries p pend) <= 1)%nat).
  { destruct Hq as [-> | (tl & -> & _)]; simpl; lia. }
  rewrite touch_times_cons in Hq, Hsp'.
  destruct (step exts W pend e) as [p1 o1] eqn:Estep.
  destruct (run exts W p1 a) as [p2 o2] eqn:Erun. simpl.
  assert (Hnext : quiet (hd tN (touch_times p a)) p1 /\ count_path p o1 = 0%nat
                  /\ spaced W (touch_times p a ++ [tN])).
  { destruct (touch_time p e) as [t|] eqn:Et.
    - destruct (step_touch pend e t Et Hlen) as [Hp Ho]. rewrite Estep in Hp, Ho.
      simpl in Ho. subst o1. split; [|split; [reflexivity | exact (spaced_tail _ _ Hsp')]].
      right. exists t. split; [exact Hp|].
      destruct (touch_times p a) as [|t2 r]; simpl in Hsp' |- *; tauto.
    - split; [|split; [|exact Hsp']].
      + destruct e as [q d t0 | q d t0 | now].
        1,2: destruct (step_other pend _ Et ltac:(discriminate)) as [Hp _];
             rewrite Estep in Hp; unfold quiet; simpl in Hp; rewrite Hp; exact Hq.
        simpl in Estep.
        assert (Hnow : now <= hd tN (touch_times p a)).
        { apply hd_touch_bound; [|exact HeN].
          eapply Forall_impl; [exact He | unfold time_le; simpl; intros; lia]. }
        pose proof (p_entries_tick now pend) as Ht. rewrite Estep in Ht. simpl in Ht.
        destruct Hq as [Hn | (tl & Hn & Hlt)]; rewrite Hn in Ht; simpl in Ht.
        * left; exact Ht.
        * right. exists tl. split; [|exact Hlt].
          destruct (W <=? now - tl) eqn:Ed; [apply Z.leb_le in Ed; lia | exact Ht].
      + destruct e as [q d t0 | q d t0 | now].
        1,2: destruct (step_other pend _ Et ltac:(discriminate)) as [_ Ho];
             rewrite Estep in Ho; simpl in Ho; subst o1; reflexivity.
        simpl in Estep.
        assert (Hnow : now <= hd tN (touch_times p a)).
        { apply hd_touch_bound; [|exact HeN].
          eapply Forall_impl; [exact He | unfold time_le; simpl; intros; lia]. }
        pose proof (count_tick now pend) as Hc. rewrite Estep in Hc. simpl in Hc.
        rewrite Hc.
        destruct Hq as [Hn | (tl & Hn & Hlt)]; rewrite Hn; simpl; [reflexivity|].
        destruct (W <=? now - tl) eqn:Ed; [apply Z.leb_le in Ed; lia | reflexivity]. }
  destruct Hnext as (Hq1 & Hc1 & Hsp1).
  destruct (IH p1 Hs HaN Hsp1 Hq1) as [Hc2 Hq2]. rewrite Erun in Hc2, Hq2. simpl in Hc2, Hq2.
  split; [rewrite count_path_app, Hc1, Hc2; reflexivity | exact Hq2].
Qed.
(** Phase two, after the settle: nothing more for [p]. *)
Lemma no_settle_when_idle (c : list fs_event) :
  forall pend, touch_times p c = [] -> p_entries p pend = [] ->
  count_path p (snd (run exts W pend c)) = 0%nat.
Proof.
  induction c as [|e c IH]; intros pend Ht Hn; simpl; [reflexivity|].
  rewrite touch_times_cons in Ht.
  destruct (touch_time p e) eqn:Et; [discriminate|].
  destruct (step exts W pend e) as [p1 o1] eqn:Estep.
  destruct (run exts W p1 c) as [p2 o2] eqn:Erun. simpl.
  assert (H1 : p_entries p p1 = [] /\ count_path p o1 = 0%nat).
  { destruct e as [q d t0 | q d t0 | now].
    1,2: destruct (step_other pend _ Et ltac:(discriminate)) as [Hp Ho];
         rewrite Estep in Hp, Ho; simpl in Hp, Ho; subst o1; rewrite Hp; split; [exact Hn | reflexivity].
    simpl in Estep. pose proof (p_entries_tick now pend) as Hp. pose proof (count_tick now pend) as Hc.
    rewrite Estep in Hp, Hc. simpl in Hp, Hc. rewrite Hn in Hp, Hc. split; assumption. }
  destruct H1 as [Hp1 Hc1]. pose proof (IH p1 Ht Hp1) as Hc2. rewrite Erun in Hc2. simpl in Hc2.
  rewrite count_path_app, Hc1, Hc2. reflexivity.
Qed.

(** Phase two, before the settle: exactly one notification, stamped at least
    [W] after the last event [tN]. *)
Lemma one_settle_after_last (c : list fs_event) (tN : Z) :
  forall pend, touch_times p c = [] -> p_entries p pend = [(p, tN)] ->
  (exists now, In (Tick now) c /\ tN + W <= now) ->
  count_path p (snd (run exts W pend c)) = 1%nat /\
  forall x, In (p, x) (snd (run exts W pend c)) -> tN + W <= x.
Proof.
  induction c as [|e c IH]; intros pend Ht Hn Hlive.
  { destruct Hlive as (now & [] & _). }
  simpl. rewrite touch_times_cons in Ht.
  destruct (touch_time p e) eqn:Et; [discriminate|].
  destruct (step exts W pend e) as [p1 o1] eqn:Estep.
  destruct (run exts W p1 c) as [p2 o2] eqn:Erun. simpl.
  destruct e as [q d t0 | q d t0 | now].
  1,2: destruct (step_other pend _ Et ltac:(discriminate)) as [Hp Ho];
       rewrite Estep in Hp, Ho; simpl in Hp, Ho; subst o1; rewrite Hn in Hp;
       assert (Hl : exists now, In (Tick now) c /\ tN + W <= now)
         by (destruct Hlive as (now & [Heq | Hin] & Hle); [discriminate | eauto]);
       destruct (IH p1 Ht Hp Hl) as [Hc Hx]; rewrite Erun in Hc, Hx; simpl in Hc, Hx;
       split; [exact Hc | exact Hx].
  simpl in Estep. pose proof (p_entries_tick now pend) as Hp. pose proof (count_tick now pend) as Hc.
  rewrite Estep in Hp, Hc. simpl in Hp, Hc. rewrite Hn in Hp, Hc. simpl in Hp, Hc.
  destruct (W <=? now - tN) eqn:Ed; simpl in Hp, Hc.
  - (* the settle *)
    apply Z.leb_le in Ed.
    pose proof (no_settle_when_idle c p1 Ht Hp) as Hc2. rewrite Erun in Hc2. simpl in Hc2.
    split; [rewrite count_path_app, Hc, Hc2; reflexivity|].
    intros x Hx. apply in_app_or in Hx as [Hx | Hx].
    + assert (x = now) by (eapply tick_stamp; rewrite Estep; exact Hx). lia.
    + exfalso. exact (count_zero_not_in o2 x Hc2 Hx).
  - apply Z.leb_gt in Ed.
    assert (Hl : exists now', In (Tick now') c /\ tN + W <= now').
    { destruct Hlive as (now' & [Heq | Hin] & Hle); [inversion Heq; subst; lia | eauto]. }
    destruct (IH p1 Ht Hp Hl) as [Hc2 Hx2]. rewrite Erun in Hc2, Hx2. simpl in Hc2, Hx2.
    split; [rewrite count_path_app, Hc, Hc2; reflexivity|].
    intros x Hx. apply in_app_or in Hx as [Hx | Hx].
    + exfalso. exact (count_zero_not_in o1 x Hc Hx).
    + exact (Hx2 x Hx).
Qed.

Lemma split_last_touch (l : list fs_event) :
  touch_times p l <> [] ->
  exists a e b t, l = a ++ e :: b /\ touch_time p e = Some t /\ touch_times p b = [] /\
                  touch_times p l = touch_times p a ++ [t].
Proof.
  induction l as [|x l IH]; intros Hne; [contradiction|].
  destruct (touch_times p l) as [|t0 r] eqn:El.
  - rewrite touch_times_cons, El in Hne.
    destruct (touch_time p x) as [t|] eqn:Ex; [|contradiction].
    exists [], x, l, t. rewrite touch_times_cons, Ex, El. auto.
  - destruct (IH ltac:(discriminate)) as (a & e & b & t & -> & He & Hb & Hl).
    exists (x :: a), e, b, t. split; [reflexivity|]. split; [exact He|]. split; [exact Hb|].
    rewrite !touch_times_cons, El, Hl.
    destruct (touch_time p x); reflexivity.
Qed.

End PerPath.

(** C5: take a path [p] the handler accepts (not hidden, not a [.tmp] or
    [.part] file, extension allowed), not pending at the start. Let the
    events of [p] in [pre] be spaced less than the window [W] apart, let
    [post] have no event of [p] and contain a worker wake-up at least [W]
    after the last one, and let the clock readings be non-decreasing. Then
    exactly one settle notification for [p] is emitted, and it is stamped at
    least [W] after the last event, so never while the path is younger than
    the window. *)
Theorem debounce_single_settle (exts : list string) (W : Z) (p : string) (pend0 : Pending)
  (pre post : list fs_event) :
  should_process_file exts p = true ->
  p_entries p pend0 = [] ->
  StronglySorted time_le (pre ++ post) ->
  touch_times p pre <> [] ->
  spaced W (touch_times p pre) ->
  touch_times p post = [] ->
  (exists now, In (Tick now) post /\ List.last (touch_times p pre) 0 + W <= now) ->
  count_path p (snd (run exts W pend0 (pre ++ post))) = 1%nat /\
  (forall x, In (p, x) (snd (run exts W pend0 (pre ++ post))) ->
             List.last (touch_times p pre) 0 + W <= x).
Proof.
  intros Hsp H0 Hsort Hne Hspc Hpost Hlive.
  destruct (split_last_touch p pre Hne) as (a & e & b & tN & -> & He & Hb & Hl).
  rewrite Hl in Hlive, Hspc |- *. rewrite List.last_last in Hlive |- *.
  rewrite <- app_assoc in Hsort |- *. simpl in Hsort |- *.
  set (c := b ++ post) in *.
  apply sorted_app_inv in Hsort as [Hsa Hae].
  assert (HaN : Forall (fun x => ev_time x <= tN) a).
  { eapply Forall_impl; [exact Hae|]. intros x Hx. inversion Hx; subst.
    unfold time_le in *. rewrite (touch_time_ev p e tN He) in *. assumption. }
  destruct (no_settle_before_last exts W p Hsp a tN pend0 Hsa HaN Hspc (or_introl H0))
    as [Hc1 Hq1].
  rewrite run_app.
  set (p1 := fst (run exts W pend0 a)) in *.
  assert (Hlen : (List.length (p_entries p p1) <= 1)%nat).
  { destruct Hq1 as [-> | (tl & -> & _)]; simpl; lia. }
  destruct (step_touch exts W p Hsp p1 e tN He Hlen) as [Hp2 Ho2].
  simpl. destruct (step exts W p1 e) as [p2 o2] eqn:Estep. simpl in Hp2, Ho2. subst o2.
  assert (Htc : touch_times p c = []) by (unfold c; rewrite touch_times_app, Hb, Hpost; reflexivity).
  assert (Hl2 : exists now, In (Tick now) c /\ tN + W <= now).
  { destruct Hlive as (now & Hin & Hle). exists now. split; [|exact Hle].
    unfold c. apply in_or_app. right. exact Hin. }
  destruct (one_settle_after_last exts W p c tN p2 Htc Hp2 Hl2) as [Hc3 Hx3].
  destruct (run exts W p2 c) as [p3 o3] eqn:Erun. simpl in Hc3, Hx3 |- *.
  split.
  - rewrite count_path_app, Hc1, Hc3. reflexivity.
  - intros x Hx. apply in_app_or in Hx as [Hx | Hx].
    + exfalso. exact (count_zero_not_in p _ x Hc1 Hx).
    + exact (Hx3 x Hx).
Qed.

End DebounceFacts.

Lemma debounce_single_settle_witness :
  Debounce.count_path "/w/a.mp4"
    (snd (Debounce.run [] 5 [] (burst_pre ++ burst_post))) = 1%nat /\
  (forall x, In ("/w/a.mp4"%string, x) (snd (Debounce.run [] 5 [] (burst_pre ++ burst_post))) ->
             List.last (Debounce.touch_times "/w/a.mp4" burst_pre) 0 + 5 <= x).
Proof.
  apply (DebounceFacts.debounce_single_settle [] 5 "/w/a.mp4" [] burst_pre burst_post).
  - vm_compute. reflexivity.
  - vm_compute. reflexivity.
  - unfold burst_pre, burst_post; simpl.
    repeat (constructor || (unfold DebounceFacts.time_le; simpl; lia)).
  - vm_compute. discriminate.
  - simpl. lia.
  - vm_compute. reflexivity.
  - exists 11. split; [simpl; tauto | simpl; lia].
Defined.

(* ================================================================== *)
(** * Further properties of the code *)

(* ------------------------------------------------------------------ *)
(** ** [_import_media_file] and [_move_processed_file] *)

Lemma mkdir_static d w :
  ledger (mkdir d w) = ledger w /\ medias (mkdir d w) = medias w /\
  files (mkdir d w) = files w /\ next_id (mkdir d w) = next_id w /\ incl (dirs w) (dirs (mkdir d w)).
Proof.
  unfold mkdir. destruct (is_dir w d); simpl; repeat split; try reflexivity.
  - apply incl_refl.
  - apply incl_tl, incl_refl.
Qed.

(** [shutil.move] touches the files only. *)
Lemma shutil_move_static src dst w :
  ledger (shutil_move src dst w) = ledger w /\ medias (shutil_move src dst w) = medias w /\
  next_id (shutil_move src dst w) = next_id w /\ dirs (shutil_move src dst w) = dirs w.
Proof.
  unfold shutil_move. destruct (find_file w src); [|auto]. cbv zeta.
  repeat match goal with |- context [if ?b then _ else _] => destruct b end;
    repeat split; reflexivity.
Qed.

Lemma move_processed_file_db h ts p dup w :
  ledger (move_processed_file h ts p dup w) = ledger w /\
  medias (move_processed_file h ts p dup w) = medias w /\
  next_id (move_processed_file h ts p dup w) = next_id w.
Proof.
  unfold move_processed_file. destruct (h_processed_dir h) as [[|c d]|]; auto.
  set (w0 := mkdir _ (mkdir _ w)).
  assert (H0 : ledger w0 = ledger w /\ medias w0 = medias w /\ next_id w0 = next_id w).
  { subst w0. destruct (mkdir_static (String c d) w) as (A1 & A2 & _ & A4 & _).
    destruct (mkdir_static (join (String c d) (if dup then "duplicates" else "imported"))
                (mkdir (String c d) w)) as (B1 & B2 & _ & B4 & _).
    rewrite B1, B2, B4. auto. }
  destruct (_ || _); [auto|].
  destruct (shutil_move_static p (move_target w0 (String c d) p ts dup) w0) as (S1 & S2 & S3 & _).
  rewrite S1, S2, S3. exact H0.
Qed.

(** The branches of [_import_media_file], in the order the source takes them. *)
Lemma import_media_file_inv h ts p w w' o :
  import_media_file h ts p w = (w', o) ->
  (find_file w p = None /\ w' = w /\ o = (if is_dir w p then NotAFile else Gone)) \/
  (exists f, find_file w p = Some f /\
     ((file_size f = 0 /\ w' = w /\ o = Empty) \/
      (0 < file_size f /\ h_max_size h < file_size f /\ w' = w /\ o = TooLarge) \/
      (0 < file_size f <= h_max_size h /\
       ((readable f = false /\ w' = w /\ o = NoChecksum) \/
        (readable f = true /\ (exists m, In m (medias w) /\ m_md5 m = content f) /\
         w' = (if relocation_on h then move_processed_file h ts p true w else w) /\
         o = DuplicateSkipped) \/
        (readable f = true /\ (forall m, In m (medias w) -> m_md5 m <> content f) /\
         w' = (let m := mkMedia (next_id w) (content f) (h_user h)
                          (fst (splitext (basename p))) (fpath f) in
               let w1 := mkWorld (ledger w) (m :: medias w) (files w) (dirs w) (users w)
                           (stdout w) (Pos.succ (next_id w)) (readonly_dirs w) in
               if relocation_on h then move_processed_file h ts p false w1 else w1) /\
         o = Imported))))).
Proof.
  unfold import_media_file. destruct (find_file w p) as [f|] eqn:Hf; intros H.
  - right. exists f. split; [reflexivity|].
    assert (Hnn : 0 <= file_size f) by (unfold file_size; lia).
    destruct (file_size f =? 0) eqn:E0.
    { left. apply Z.eqb_eq in E0. inversion H; subst. auto. }
    apply Z.eqb_neq in E0.
    destruct (h_max_size h <? file_size f) eqn:E1.
    { right; left. apply Z.ltb_lt in E1. inversion H; subst. repeat split; auto; lia. }
    apply Z.ltb_ge in E1. right; right. split; [lia|].
    unfold calculate_md5 in H. destruct (readable f) eqn:Er.
    2:{ left. inversion H; subst. auto. }
    cbv beta iota zeta in H.
    destruct (List.find (fun m => String.eqb (m_md5 m) (content f)) (medias w)) as [m|] eqn:Ef.
    + right; left. apply List.find_some in Ef as [Hin Heq]. apply String.eqb_eq in Heq.
      inversion H; subst. split; [reflexivity|]. split; [exists m; auto|]. auto.
    + right; right. unfold create_media in H. rewrite Er in H. cbv beta iota zeta in H.
      split; [reflexivity|]. split.
      * intros m Hin Heq. pose proof (List.find_none _ _ Ef m Hin) as Hn. simpl in Hn.
        rewrite Heq, String.eqb_refl in Hn. discriminate.
      * inversion H; subst. auto.
  - left. inversion H; subst. auto.
Qed.

(** X1: [_import_media_file] never writes the import ledger of the scan
    command, creates a media row only when it reports [Imported] (exactly
    one, carrying the file's checksum, the handler's user and the file name
    without its extension as title), creates none on a duplicate (whose
    checksum is already in the library), and leaves everything unchanged
    on every other outcome. *)
Theorem import_media_file_effects h ts p w :
  let r := import_media_file h ts p w in
  ledger (fst r) = ledger w /\
  (snd r = Imported ->
     exists f m, find_file w p = Some f /\ medias (fst r) = m :: medias w /\
                 m_md5 m = content f /\ m_user m = h_user h /\
                 m_title m = fst (splitext (basename p))) /\
  (snd r = DuplicateSkipped ->
     medias (fst r) = medias w /\
     exists f m, find_file w p = Some f /\ In m (medias w) /\ m_md5 m = content f) /\
  (snd r <> Imported -> snd r <> DuplicateSkipped -> fst r = w).
Proof.
  intros r. destruct r as [w' o] eqn:Er. subst r. simpl.
  apply import_media_file_inv in Er.
  destruct Er as [(_ & -> & ->) | (f & Hf & Hc)].
  { destruct (is_dir w p); repeat split; intros; try reflexivity; discriminate. }
  destruct Hc as [(_ & -> & ->) | [(_ & _ & -> & ->) | (_ & Hc)]].
  1,2: repeat split; intros; try reflexivity; discriminate.
  destruct Hc as [(_ & -> & ->) | [(_ & Hm & -> & ->) | (_ & _ & -> & ->)]].
  - repeat split; intros; try reflexivity; discriminate.
  - destruct (move_processed_file_db h ts p true w) as (L & M & _).
    split; [destruct (relocation_on h); auto|]. split; [intros H; discriminate|].
    split; [|intros _ H; contradiction].
    intros _. split; [destruct (relocation_on h); auto|].
    destruct Hm as (m & Hin & Heq). exists f, m. auto.
  - cbv zeta. set (m := mkMedia _ _ _ _ _).
    set (w1 := mkWorld (ledger w) (m :: medias w) (files w) (dirs w) (users w) (stdout w)
                 (Pos.succ (next_id w)) (readonly_dirs w)).
    destruct (move_processed_file_db h ts p false w1) as (L & M & _).
    split; [destruct (relocation_on h); [rewrite L|]; reflexivity|].
    split; [|split; [intros H; discriminate | intros H; contradiction]].
    intros _. exists f, m. split; [exact Hf|].
    split; [destruct (relocation_on h); [rewrite M|]; reflexivity|]. auto.
Qed.



Lemma find_filter_other (l : list FileEntry) a b q :
  q <> a -> q <> b ->
  List.find (fun g => String.eqb (fpath g) q)
    (List.filter (fun g => negb (String.eqb (fpath g) a) && negb (String.eqb (fpath g) b)) l)
  = List.find (fun g => String.eqb (fpath g) q) l.
Proof.
  intros Ha Hb. induction l as [|g l IH]; simpl; [reflexivity|].
  destruct (String.eqb (fpath g) q) eqn:E.
  - pose proof E as E'. apply String.eqb_eq in E'. rewrite E'.
    rewrite (proj2 (String.eqb_neq q a) Ha), (proj2 (String.eqb_neq q b) Hb). simpl.
    rewrite E. reflexivity.
  - destruct (negb (String.eqb (fpath g) a) && negb (String.eqb (fpath g) b)); simpl;
      [rewrite E|]; exact IH.
Qed.

Lemma find_filter_other1 (l : list FileEntry) b q :
  q <> b ->
  List.find (fun g => String.eqb (fpath g) q)
    (List.filter (fun g => negb (String.eqb (fpath g) b)) l)
  = List.find (fun g => String.eqb (fpath g) q) l.
Proof.
  intros Hb. induction l as [|g l IH]; simpl; [reflexivity|].
  destruct (String.eqb (fpath g) q) eqn:E.
  - pose proof E as E'. apply String.eqb_eq in E'. rewrite E'.
    rewrite (proj2 (String.eqb_neq q b) Hb). simpl. rewrite E. reflexivity.
  - destruct (negb (String.eqb (fpath g) b)); simpl; [rewrite E|]; exact IH.
Qed.

(** The frame of [shutil.move]: a path other than the source, the
    destination and the name inside a destination directory keeps its file,
    whichever step fails. *)
Lemma shutil_move_frame src dst w q :
  q <> src -> q <> dst -> q <> join dst (basename src) ->
  find_file (shutil_move src dst w) q = find_file w q.
Proof.
  intros Hs Hd Hj. unfold shutil_move.
  destruct (find_file w src) as [f|]; [|reflexivity]. cbv zeta.
  set (rd := if is_dir w dst then join dst (basename src) else dst).
  assert (Hrd : q <> rd) by (subst rd; destruct (is_dir w dst); assumption).
  assert (Hm : find_file (set_files (mkFile rd (content f) (readable f)
                 :: List.filter (fun g => negb (String.eqb (fpath g) src)
                                          && negb (String.eqb (fpath g) rd)) (files w)) w) q
               = find_file w q).
  { unfold find_file; simpl. rewrite (proj2 (String.eqb_neq rd q) (not_eq_sym Hrd)).
    apply find_filter_other; assumption. }
  assert (Hc : find_file (set_files (mkFile rd (content f) (readable f)
                 :: List.filter (fun g => negb (String.eqb (fpath g) rd)) (files w)) w) q
               = find_file w q).
  { unfold find_file; simpl. rewrite (proj2 (String.eqb_neq rd q) (not_eq_sym Hrd)).
    apply find_filter_other1; assumption. }
  repeat match goal with |- context [if ?b then _ else _] => destruct b end;
    first [reflexivity | exact Hm | exact Hc].
Qed.

(** The frame of [_move_processed_file]: a path other than the source, the
    destination and the name inside a destination directory keeps its file. *)
Lemma move_frame (h : Handler) (ts p : string) (dup : bool) (w : World) (d q : string) :
  h_processed_dir h = Some d ->
  let td := join d (if dup then "duplicates" else "imported") in
  let w0 := mkdir td (mkdir d w) in
  let tgt := move_target w0 d p ts dup in
  q <> p -> q <> tgt -> q <> join tgt (basename p) ->
  find_file (move_processed_file h ts p dup w) q = find_file w q.
Proof.
  intros Hd td w0 tgt Hp Ht Htb.
  unfold move_processed_file. rewrite Hd.
  destruct d as [|c d']; [reflexivity|].
  fold td. fold w0. fold tgt.
  destruct (_ || _); [reflexivity|].
  rewrite shutil_move_frame by assumption.
  subst w0. rewrite !find_file_mkdir. reflexivity.
Qed.


Lemma substring_length n m s :
  String.length (String.substring n m s) = Nat.min m (String.length s - n).
Proof.
  revert n m. induction s as [|c s IH]; intros n m.
  - destruct n, m; reflexivity.
  - destruct n as [|n].
    + destruct m as [|m]; [reflexivity|]. simpl. rewrite IH. lia.
    + simpl. apply IH.
Qed.

Lemma splitext_length name :
  (String.length (fst (splitext name)) + String.length (snd (splitext name)))%nat
  = String.length name.
Proof.
  unfold splitext. destruct (rfind dot name) as [i|]; [|simpl; lia].
  destruct (forallb _ _); simpl; [lia|].
  unfold str_take, str_drop. rewrite !substring_length. lia.
Qed.

(** X6: when the file name is already taken in the processed directory,
    relocation keeps the file that has that name, whatever the timestamp;
    and the moved file goes to the timestamped name [name_timestamp.ext]:
    when the directories can be made, all directories are writable and no
    directory has the timestamped name, the file sits there afterwards and
    no longer at its source path. *)
Theorem relocation_keeps_existing_file (h : Handler) (ts p : string) (dup : bool) (w : World)
  (d : string) (g : FileEntry) :
  h_processed_dir h = Some d ->
  let td := join d (if dup then "duplicates" else "imported") in
  let stamped := join td (fst (splitext (basename p)) +s+ "_" +s+ ts +s+
                          snd (splitext (basename p))) in
  find_file w (join td (basename p)) = Some g -> p <> join td (basename p) ->
  find_file (move_processed_file h ts p dup w) (join td (basename p)) = Some g /\
  (forall f, find_file w p = Some f -> d <> EmptyString -> readonly_dirs w = [] ->
     find_file w d = None -> find_file w td = None -> is_dir w stamped = false ->
     find_file (move_processed_file h ts p dup w) stamped
       = Some (mkFile stamped (content f) (readable f)) /\
     (p <> stamped -> find_file (move_processed_file h ts p dup w) p = None)).
Proof.
  intros Hd td stamped Hg Hp.
  set (w0 := mkdir td (mkdir d w)).
  assert (Hw0 : forall x, find_file w0 x = find_file w x)
    by (intros x; subst w0; rewrite !find_file_mkdir; reflexivity).
  set (tgt := move_target w0 d p ts dup).
  assert (Htgt : tgt = stamped).
  { subst tgt stamped. unfold move_target. fold td.
    unfold path_exists. rewrite Hw0, Hg.
    destruct (splitext (basename p)); reflexivity. }
  assert (Hlen : (String.length (join td (basename p)) < String.length tgt)%nat).
  { rewrite Htgt. subst stamped. unfold join.
    repeat progress (rewrite ?length_append; simpl).
    pose proof (splitext_length (basename p)). lia. }
  split.
  - rewrite <- Hg, <- (Hw0 (join td (basename p))). rewrite Hw0.
    apply (move_frame h ts p dup w d); [exact Hd | exact (not_eq_sym Hp) | |].
    + fold td. fold w0. fold tgt. intros E. rewrite E in Hlen. lia.
    + fold td. fold w0. fold tgt. intros E.
      assert (Hl2 : (String.length (join tgt (basename p)) >= String.length tgt)%nat)
        by (unfold join; rewrite !length_append; lia).
      rewrite <- E in Hl2. lia.
  - intros f Hf Hne Hro Hfd Hftd Hst.
    assert (Hdir : is_dir w0 tgt = false).
    { rewrite Htgt. subst w0.
      assert (Ltd : (String.length td < String.length stamped)%nat)
        by (subst stamped; unfold join; rewrite !length_append; simpl; lia).
      assert (Ld : (String.length d < String.length td)%nat)
        by (subst td; unfold join; rewrite !length_append; simpl; lia).
      rewrite !is_dir_mkdir_other; [exact Hst | |];
        intros E; rewrite E in *; lia. }
    rewrite <- Htgt.
    exact (move_lands h ts p dup w d f Hd Hne Hf Hro Hfd Hftd Hdir).
Qed.

(* ------------------------------------------------------------------ *)
(** ** The scan loop of [process_config] *)

(** After the get-or-create of lines 100-111 the entry keeps its media link. *)
Lemma observe_media_ref (l : Ledger) sp cfg now l' e' c :
  observe l sp cfg now = (l', e', c) ->
  media_ref l' sp = media_ref l sp /\ media e' = media_ref l sp.
Proof.
  intros H. apply observe_spec in H as (-> & _ & _ & Hnew & Hold).
  unfold media_ref. rewrite lookup_insert_eq.
  destruct (l !! sp) as [e|] eqn:E.
  - destruct (Hold e eq_refl) as (-> & _). auto.
  - destruct (Hnew eq_refl) as (-> & _). auto.
Qed.


Lemma process_file_dry cfg u exts del opts now w f :
  o_dry_run opts = true ->
  medias (process_file cfg u exts del opts now w f) = medias w /\
  files (process_file cfg u exts del opts now w f) = files w /\
  next_id (process_file cfg u exts del opts now w f) = next_id w /\
  (stdout (process_file cfg u exts del opts now w f) = stdout w \/
   stdout (process_file cfg u exts del opts now w f) = stdout w ++ [dry_line (fpath f)]).
Proof.
  intros Hd. unfold process_file.
  destruct (negb (ext_ok exts f)); [auto|].
  destruct (observe (ledger w) (fpath f) cfg now) as [[l record] c].
  destruct (is_imported record && negb (o_force opts)); [simpl; auto|].
  rewrite Hd. simpl. auto.
Qed.

Lemma fold_dry cfg u exts del opts now (P : string -> Prop) (fs : list FileEntry) :
  o_dry_run opts = true -> Forall (fun f => P (fpath f)) fs ->
  forall w,
  medias (fold_left (process_file cfg u exts del opts now) fs w) = medias w /\
  files (fold_left (process_file cfg u exts del opts now) fs w) = files w /\
  next_id (fold_left (process_file cfg u exts del opts now) fs w) = next_id w /\
  exists sps, stdout (fold_left (process_file cfg u exts del opts now) fs w)
                = stdout w ++ map dry_line sps /\ Forall P sps.
Proof.
  intros Hd. induction fs as [|f fs IH]; intros Hall w; simpl.
  { repeat split; try reflexivity. exists []. rewrite app_nil_r. split; [reflexivity | constructor]. }
  inversion Hall as [|? ? Hf Hrest]; subst.
  destruct (process_file_dry cfg u exts del opts now w f Hd) as (M1 & F1 & N1 & O1).
  destruct (IH Hrest (process_file cfg u exts del opts now w f)) as (M2 & F2 & N2 & sps & O2 & P2).
  split; [congruence|]. split; [congruence|]. split; [congruence|].
  destruct O1 as [O1 | O1].
  - exists sps. rewrite O2, O1. auto.
  - exists (fpath f :: sps). rewrite O2, O1, <- app_assoc. split; [reflexivity | constructor; auto].
Qed.

(** X8: a [--dry-run] pass creates no media, moves the primary-key sequence
    of no table, and never deletes or moves a file (not even with
    [delete_after_import]); all it prints is report lines
    ["[dry-run] Would import ..."]. *)
Theorem dry_run_keeps_media_and_files cfg opts now w w' :
  o_dry_run opts = true ->
  process_config cfg opts now w = Ok w' ->
  medias w' = medias w /\ files w' = files w /\ next_id w' = next_id w /\
  exists sps, stdout w' = stdout w ++ map dry_line sps.
Proof.
  intros Hd Hpc. unfold process_config in Hpc.
  destruct (negb _); [discriminate|].
  destruct (resolve_user cfg w) as [u|msg]; [|discriminate].
  inversion Hpc; subst w'.
  edestruct (fold_dry (config_name_of cfg) u (normalise_extensions (c_extensions cfg))
               (c_delete_after cfg) opts now (fun _ => True)
               (iter_files (files w) (c_path cfg) (c_recursive cfg)) Hd) as (M & F & N & sps & O & _).
  { apply List.Forall_forall. intros; exact I. }
  split; [exact M|]. split; [exact F|]. split; [exact N|]. exists sps; exact O.
Qed.

(** X9: a file that cannot be opened is not imported and stays where it
    is (even with [delete_after_import] or [--force]): no media row is
    created and its entry keeps the media link it had, so a path that was
    never imported is tried again by the next pass. *)
Theorem unreadable_file_left_for_retry cfg u exts del opts now w f :
  readable f = false ->
  medias (process_file cfg u exts del opts now w f) = medias w /\
  files (process_file cfg u exts del opts now w f) = files w /\
  media_ref (ledger (process_file cfg u exts del opts now w f)) (fpath f)
    = media_ref (ledger w) (fpath f).
Proof.
  intros Hr. unfold process_file.
  destruct (negb (ext_ok exts f)); [auto|].
  destruct (observe (ledger w) (fpath f) cfg now) as [[l record] c] eqn:Hobs.
  apply observe_media_ref in Hobs as [Hl _].
  destruct (is_imported record && negb (o_force opts)); [simpl; auto|].
  destruct (o_dry_run opts); [simpl; auto|].
  unfold create_media. rewrite Hr. simpl. auto.
Qed.







(* ------------------------------------------------------------------ *)
(** ** The debouncer, on any trace *)

Module DebounceSafety.
Import Debounce.

Lemma run_single exts W pend e : fst (run exts W pend [e]) = fst (step exts W pend e).
Proof. simpl. destruct (step exts W pend e); reflexivity. Qed.

(** The pending entry of an accepted path, if any, holds the time of its
    latest event. *)
Lemma pending_is_last_touch exts W p pend0 (pre : list fs_event) :
  should_process_file exts p = true -> p_entries p pend0 = [] ->
  p_entries p (fst (run exts W pend0 pre)) = [] \/
  (touch_times p pre <> [] /\
   p_entries p (fst (run exts W pend0 pre)) = [(p, List.last (touch_times p pre) 0)]).
Proof.
  intros Hsp H0. induction pre as [|e pre IH] using rev_ind; [left; exact H0|].
  rewrite DebounceFacts.run_app, run_single, DebounceFacts.touch_times_app. simpl.
  set (p1 := fst (run exts W pend0 pre)) in *.
  assert (Hlen : (List.length (p_entries p p1) <= 1)%nat)
    by (destruct IH as [-> | (_ & ->)]; simpl; lia).
  destruct (touch_time p e) as [t|] eqn:Et.
  - right. destruct (DebounceFacts.step_touch exts W p Hsp p1 e t Et Hlen) as [Hp _].
    rewrite Hp, List.last_last. split; [|reflexivity].
    intros Hn. apply app_eq_nil in Hn as [_ Hn]. discriminate.
  - rewrite app_nil_r. destruct e as [q d t0 | q d t0 | now].
    1,2: destruct (DebounceFacts.step_other exts W p p1 _ Et ltac:(discriminate)) as [Hp _];
         rewrite Hp; exact IH.
    change (fst (step exts W p1 (Tick now))) with (fst (tick W now p1)).
    pose proof (DebounceFacts.p_entries_tick W p now p1) as Ht. rewrite Ht.
    destruct IH as [-> | (Hne & ->)]; [left; reflexivity|]. simpl.
    destruct (W <=? now - List.last (touch_times p pre) 0); simpl; [left; reflexivity|].
    right. split; [exact Hne | reflexivity].
Qed.

(** X12: on any trace of events and worker wake-ups, with no ordering or
    spacing assumption, a path the handler accepts is handed to the
    importer at a wake-up only if it has had an event, and only once the
    window has passed since its latest event: it is never imported while
    younger than the debounce delay. *)
Theorem settle_only_after_window exts W p pend0 (pre : list fs_event) now x :
  should_process_file exts p = true -> p_entries p pend0 = [] ->
  In (p, x) (snd (tick W now (fst (run exts W pend0 pre)))) ->
  x = now /\ touch_times p pre <> [] /\ List.last (touch_times p pre) 0 + W <= now.
Proof.
  intros Hsp H0 Hin.
  split; [exact (DebounceFacts.tick_stamp W now _ p x Hin)|].
  assert (Hc : count_path p (snd (tick W now (fst (run exts W pend0 pre)))) <> 0%nat)
    by (intros Hc; exact (DebounceFacts.count_zero_not_in p _ x Hc Hin)).
  rewrite DebounceFacts.count_tick in Hc.
  destruct (pending_is_last_touch exts W p pend0 pre Hsp H0) as [Hn | (Hne & Hp)].
  - rewrite Hn in Hc. simpl in Hc. congruence.
  - rewrite Hp in Hc. simpl in Hc. split; [exact Hne|].
    destruct (W <=? now - List.last (touch_times p pre) 0) eqn:Ed; simpl in Hc; [|congruence].
    apply Z.leb_le in Ed. lia.
Qed.

(** A path the handler rejects never enters the pending dict. *)
Lemma rejected_never_pending exts W p (es : list fs_event) :
  should_process_file exts p = false ->
  forall pend, p_entries p pend = [] ->
  count_path p (snd (run exts W pend es)) = 0%nat.
Proof.
  intros Hsp. induction es as [|e es IH]; intros pend Hn; simpl; [reflexivity|].
  destruct (step exts W pend e) as [p1 o1] eqn:Estep.
  destruct (run exts W p1 es) as [p2 o2] eqn:Erun. simpl.
  assert (H1 : p_entries p p1 = [] /\ count_path p o1 = 0%nat).
  { destruct e as [q d t0 | q d t0 | now].
    1,2: simpl in Estep; inversion Estep; subst; split; [|reflexivity];
         unfold on_event; destruct d; [exact Hn|];
         destruct (String.eq_dec q p) as [-> | Hq]; [rewrite Hsp; exact Hn|];
         destruct (should_process_file exts q); simpl; [|exact Hn];
         rewrite DebounceFacts.p_entries_set_other by exact Hq; exact Hn.
    simpl in Estep. pose proof (DebounceFacts.p_entries_tick W p now pend) as Hp.
    pose proof (DebounceFacts.count_tick W p now pend) as Hc.
    rewrite Estep in Hp, Hc. simpl in Hp, Hc. rewrite Hn in Hp, Hc. split; assumption. }
  destruct H1 as [Hp1 Hc1]. pose proof (IH p1 Hp1) as Hc2. rewrite Erun in Hc2. simpl in Hc2.
  rewrite DebounceFacts.count_path_app, Hc1, Hc2. reflexivity.
Qed.

(** X13: whatever the extension list, a hidden file (name starting with a
    dot), a [.tmp] or a [.part] file is never handed to the importer, and
    neither is a path whose only events are directory events. *)
Theorem temp_hidden_and_dirs_never_settle exts W p pend0 (es : list fs_event) :
  p_entries p pend0 = [] ->
  (match basename p with String c _ => Ascii.eqb c dot | EmptyString => false end = true \/
   ends_with ".tmp" (basename p) = true \/ ends_with ".part" (basename p) = true \/
   Forall (fun e => match e with
                    | Created q d _ | Modified q d _ => q = p -> d = true
                    | Tick _ => True
                    end) es) ->
  count_path p (snd (run exts W pend0 es)) = 0%nat.
Proof.
  intros H0 Hcase.
  destruct Hcase as [Hh | [Ht | [Hp | Hdirs]]].
  1-3: apply rejected_never_pending; [|exact H0];
       unfold should_process_file; rewrite ?Hh, ?Ht, ?Hp, ?orb_true_r; reflexivity.
  apply DebounceFacts.no_settle_when_idle; [|exact H0].
  induction es as [|e es IH]; [reflexivity|].
  inversion Hdirs as [|? ? He Hrest]; subst. rewrite DebounceFacts.touch_times_cons.
  destruct e as [q d t0 | q d t0 | now]; simpl;
    try (destruct d; [|destruct (String.eqb q p) eqn:E;
                        [apply String.eqb_eq in E; specialize (He E); discriminate|]]);
    apply IH; exact Hrest.
Qed.

End DebounceSafety.

(* ------------------------------------------------------------------ *)
(** ** Extension filters of the two strategies *)

Lemma rfind_go_spec c (l : list ascii) :
  forall i acc j, rfind_go c l i acc = Some j ->
  acc = Some j \/ ((i <= j)%nat /\ nth_error l (j - i) = Some c).
Proof.
  induction l as [|x l IH]; intros i acc j H; simpl in H; [left; exact H|].
  destruct (IH _ _ _ H) as [Ha | [Hle Hn]].
  - destruct (Ascii.eqb x c) eqn:E; [|left; exact Ha].
    right. inversion Ha; subst. apply Ascii.eqb_eq in E. subst.
    rewrite Nat.sub_diag. split; [lia | reflexivity].
  - right. split; [lia|]. replace (j - i)%nat with (S (j - S i)) by lia. exact Hn.
Qed.

Lemma str_drop_nth (s : string) :
  forall j c, nth_error (list_ascii_of_string s) j = Some c -> exists r, str_drop j s = String c r.
Proof.
  unfold str_drop. induction s as [|a s IH]; intros j c H; [destruct j; discriminate|].
  destruct j as [|j].
  - simpl in H. inversion H; subst. exists (String.substring 0 (String.length s) s).
    reflexivity.
  - simpl in H |- *. apply IH. exact H.
Qed.

(** [os.path.splitext] puts the dot in the extension: it is empty or starts
    with a dot. *)
Lemma splitext_ext_dot name :
  snd (splitext name) = EmptyString \/ exists r, snd (splitext name) = String dot r.
Proof.
  unfold splitext. destruct (rfind dot name) as [i|] eqn:Ei; [|left; reflexivity].
  destruct (forallb _ _); [left; reflexivity|]. right. simpl.
  unfold rfind in Ei. apply rfind_go_spec in Ei as [Ha | [_ Hn]]; [discriminate|].
  rewrite Nat.sub_0_r in Hn. exact (str_drop_nth name i dot Hn).
Qed.

(** X14: the event handler compares [os.path.splitext]'s extension, dot
    included, with the configured extensions as given (only lower-cased):
    a non-empty list whose entries are written without the leading dot
    (e.g. ["mp4"]) accepts no file at all. The scan command strips leading
    dots in [_normalise_extensions], so there the dot makes no difference. *)
Theorem extension_needs_dot_in_event_path exts p e es f :
  exts <> [] ->
  (forall x, In x exts -> exists c r, x = String c r /\ c <> dot) ->
  Debounce.should_process_file exts p = false /\
  ext_ok (normalise_extensions (("." +s+ e) :: es)) f = ext_ok (normalise_extensions (e :: es)) f.
Proof.
  intros Hne Hx. split; [|reflexivity].
  unfold Debounce.should_process_file.
  destruct (_ || _ || _); [reflexivity|].
  destruct exts as [|x0 xs]; [contradiction|].
  destruct (existsb _ (x0 :: xs)) eqn:E; [|reflexivity]. exfalso.
  apply existsb_exists in E as (x & Hin & Heq). apply String.eqb_eq in Heq.
  destruct (Hx x Hin) as (c & r & -> & Hc).
  destruct (splitext_ext_dot (basename p)) as [Hs | (r' & Hs)]; rewrite Hs in Heq.
  - discriminate.
  - unfold lower in Heq. simpl in Heq. injection Heq as Hc0 _.
    apply Hc. rewrite <- Hc0. reflexivity.
Qed.

(* ------------------------------------------------------------------ *)
(** ** [monitor_directories --test] against [DirectoryMonitor.start] *)

Lemma check_dirs_missing env (ds : list string) :
  (forall d, In d ds -> env_exists env d = false \/ env_isdir env d = false) ->
  fst (check_dirs env ds) = [] /\ List.length (snd (check_dirs env ds)) = List.length ds.
Proof.
  induction ds as [|d ds IH]; intros H; [auto|]. simpl.
  destruct (IH (fun x Hx => H x (or_intror Hx))) as [E Wl].
  destruct (check_dirs env ds) as [es ws]. simpl in E, Wl. subst es.
  destruct (H d (or_introl eq_refl)) as [He | Hi].
  - rewrite He. simpl. auto.
  - destruct (env_exists env d); simpl; [rewrite Hi|]; simpl; auto.
Qed.

Lemma check_dirs_unreadable env (ds : list string) d :
  In d ds -> env_exists env d = true -> env_isdir env d = true -> env_readable env d = false ->
  In ("Directory is not readable: " +s+ d) (fst (check_dirs env ds)).
Proof.
  induction ds as [|x ds IH]; intros Hin He Hi Hr; [destruct Hin|]. simpl.
  destruct (check_dirs env ds) as [es ws] eqn:Ec.
  destruct Hin as [-> | Hin].
  - rewrite He, Hi, Hr. simpl. left; reflexivity.
  - specialize (IH Hin He Hi Hr). simpl in IH.
    destruct (env_exists env x); simpl; [|exact IH].
    destruct (env_isdir env x); simpl; [|exact IH].
    destruct (env_readable env x); simpl; [exact IH | right; exact IH].
Qed.

Lemma test_configuration_dirs s env wr :
  watch_dirs s <> [] ->
  fst (test_configuration s env wr)
    = fst (check_dirs env (watch_dirs s)) ++
      (if String.eqb (watch_user s) "" then ["MEDIA_WATCH_USER is not configured"]
       else if existsb (String.eqb (watch_user s)) (env_users env) then []
       else ["User " +s+ quote +s+ watch_user s +s+ quote +s+ " does not exist"]) ++
      (if move_after_import s then
         if String.eqb (processed_dir s) "" then
           ["MEDIA_WATCH_MOVE_AFTER_IMPORT is enabled but MEDIA_WATCH_PROCESSED_DIR is not set"]
         else if env_exists env (processed_dir s) then
           if negb (env_isdir env (processed_dir s)) then
             ["MEDIA_WATCH_PROCESSED_DIR is not a directory: " +s+ processed_dir s]
           else if negb (wr (processed_dir s)) then
             ["MEDIA_WATCH_PROCESSED_DIR is not writable: " +s+ processed_dir s]
           else []
         else []
       else []) /\
  snd (test_configuration s env wr) = snd (check_dirs env (watch_dirs s)).
Proof.
  intros Hne. unfold test_configuration.
  destruct (watch_dirs s) as [|d ds]; [contradiction|].
  destruct (check_dirs env (d :: ds)). split; reflexivity.
Qed.

Lemma start_unfold s env :
  watch_dirs s <> [] -> watch_user s <> EmptyString ->
  existsb (String.eqb (watch_user s)) (env_users env) = true ->
  move_after_import s = false ->
  start s env = match List.filter (env_observer_ok env)
                        (List.filter (valid_dir env) (watch_dirs s)) with
                | [] => (false, [])
                | obs => (true, obs)
                end.
Proof.
  intros Hdirs Huser Hknown Hm. unfold start.
  destruct (watch_dirs s) as [|d0 ds] eqn:Ed; [contradiction|]. rewrite <- Ed.
  assert (Hu : String.eqb (watch_user s) "" = false) by (apply String.eqb_neq; exact Huser).
  rewrite Hu, Hknown, Hm. simpl negb. cbv iota.
  destruct (List.filter (valid_dir env) (watch_dirs s)); reflexivity.
Qed.

Lemma filter_valid_none env (ds : list string) :
  (forall d, In d ds -> env_exists env d = false \/ env_isdir env d = false) ->
  List.filter (valid_dir env) ds = [].
Proof.
  induction ds as [|d ds IH]; intros H; [reflexivity|]. simpl.
  unfold valid_dir at 1.
  destruct (H d (or_introl eq_refl)) as [-> | ->]; rewrite ?andb_false_r; simpl;
    apply IH; intros x Hx; exact (H x (or_intror Hx)).
Qed.

(** X15: [monitor_directories --test] reports a missing watch path or a
    path that is not a directory only as a warning: with a known user and
    relocation off, when no configured path is an existing directory it
    reports no error ("Configuration is valid!"), one warning per path,
    while [start] with the same settings fails. *)
Theorem test_mode_passes_when_start_fails s env wr :
  watch_dirs s <> [] -> watch_user s <> EmptyString ->
  existsb (String.eqb (watch_user s)) (env_users env) = true ->
  move_after_import s = false ->
  (forall d, In d (watch_dirs s) -> env_exists env d = false \/ env_isdir env d = false) ->
  fst (test_configuration s env wr) = [] /\
  List.length (snd (test_configuration s env wr)) = List.length (watch_dirs s) /\
  start s env = (false, []).
Proof.
  intros Hd Hu Hk Hm Hall.
  destruct (test_configuration_dirs s env wr Hd) as [Te Tw].
  destruct (check_dirs_missing env (watch_dirs s) Hall) as [E Wl].
  assert (Hu' : String.eqb (watch_user s) "" = false) by (apply String.eqb_neq; exact Hu).
  split; [rewrite Te, E, Hu', Hk, Hm; reflexivity|].
  split; [rewrite Tw; exact Wl|].
  rewrite (start_unfold s env Hd Hu Hk Hm), (filter_valid_none env _ Hall). reflexivity.
Qed.

(** X16: conversely, an existing directory that cannot be read is an error
    for [monitor_directories --test] ("Configuration is invalid"), while
    [start] only skips it: with another usable directory it starts, and
    watches that one but not the unreadable one. *)
Theorem test_mode_rejects_what_start_skips s env wr d d' :
  In d (watch_dirs s) -> env_exists env d = true -> env_isdir env d = true ->
  env_readable env d = false ->
  In d' (watch_dirs s) -> valid_dir env d' = true -> env_observer_ok env d' = true ->
  watch_user s <> EmptyString -> existsb (String.eqb (watch_user s)) (env_users env) = true ->
  move_after_import s = false ->
  In ("Directory is not readable: " +s+ d) (fst (test_configuration s env wr)) /\
  fst (start s env) = true /\ In d' (snd (start s env)) /\ ~ In d (snd (start s env)).
Proof.
  intros Hin He Hi Hr Hin' Hv' Ho' Hu Hk Hm.
  assert (Hd : watch_dirs s <> []) by (intros E; rewrite E in Hin; destruct Hin).
  split.
  - destruct (test_configuration_dirs s env wr Hd) as [Te _]. rewrite Te.
    apply in_or_app. left. apply check_dirs_unreadable; assumption.
  - rewrite (start_unfold s env Hd Hu Hk Hm).
    assert (Hobs : In d' (List.filter (env_observer_ok env)
                            (List.filter (valid_dir env) (watch_dirs s))))
      by (apply filter_In; split; [apply filter_In; split|]; assumption).
    assert (Hnot : ~ In d (List.filter (env_observer_ok env)
                             (List.filter (valid_dir env) (watch_dirs s)))).
    { intros H. apply filter_In in H as [H _]. apply filter_In in H as [_ H].
      unfold valid_dir in H. rewrite Hr, andb_false_r in H. discriminate. }
    destruct (List.filter (env_observer_ok env) (List.filter (valid_dir env) (watch_dirs s)))
      as [|o os]; [destruct Hobs|].
    simpl. split; [reflexivity|]. split; assumption.
Qed.

(* ------------------------------------------------------------------ *)
(** ** Instances of the properties above *)

Lemma import_media_file_effects_witness :
  let r := import_media_file h_plain "ts" "/w/a.jpg" w_a in
  ledger (fst r) = ledger w_a /\
  (snd r = Imported ->
     exists f m, find_file w_a "/w/a.jpg" = Some f /\ medias (fst r) = m :: medias w_a /\
                 m_md5 m = content f /\ m_user m = h_user h_plain /\
                 m_title m = fst (splitext (basename "/w/a.jpg"))) /\
  (snd r = DuplicateSkipped ->
     medias (fst r) = medias w_a /\
     exists f m, find_file w_a "/w/a.jpg" = Some f /\ In m (medias w_a) /\ m_md5 m = content f) /\
  (snd r <> Imported -> snd r <> DuplicateSkipped -> fst r = w_a).
Proof. exact (import_media_file_effects h_plain "ts" "/w/a.jpg" w_a). Defined.




Lemma relocation_keeps_existing_file_witness :
  let ts := "20261019_120000" in
  find_file (move_processed_file h_move ts "/w/a.jpg" false w_coll) "/done/imported/a.jpg"
    = Some (mkFile "/done/imported/a.jpg" "old" true) /\
  find_file (move_processed_file h_move ts "/w/a.jpg" false w_coll)
    "/done/imported/a_20261019_120000.jpg"
    = Some (mkFile "/done/imported/a_20261019_120000.jpg" "X" true) /\
  find_file (move_processed_file h_move ts "/w/a.jpg" false w_coll) "/w/a.jpg" = None.
Proof.
  intros ts.
  destruct (relocation_keeps_existing_file h_move ts "/w/a.jpg" false w_coll "/done"
              (mkFile "/done/imported/a.jpg" "old" true) eq_refl) as [H1 H2].
  - vm_compute. reflexivity.
  - apply String.eqb_neq. vm_compute. reflexivity.
  - destruct (H2 (mkFile "/w/a.jpg" "X" true)) as [H3 H4].
    + reflexivity.
    + discriminate.
    + reflexivity.
    + reflexivity.
    + vm_compute. reflexivity.
    + vm_compute. reflexivity.
    + split; [exact H1|]. split; [exact H3|]. apply H4. apply String.eqb_neq. vm_compute.
      reflexivity.
Defined.

Lemma dry_run_keeps_media_and_files_witness :
  let cfg := mkConfig "/w" None false [] true (Some "alice") in
  medias (scan cfg dry 1 w_abc) = medias w_abc /\ files (scan cfg dry 1 w_abc) = files w_abc /\
  next_id (scan cfg dry 1 w_abc) = next_id w_abc /\
  exists sps, stdout (scan cfg dry 1 w_abc) = stdout w_abc ++ map dry_line sps.
Proof.
  intros cfg.
  apply (dry_run_keeps_media_and_files cfg dry 1 w_abc (scan cfg dry 1 w_abc)).
  - reflexivity.
  - vm_compute. reflexivity.
Defined.

Lemma unreadable_file_left_for_retry_witness :
  medias (process_file "/w" "alice" [] true forced 1 w_unreadable (mkFile "/w/b.jpg" "B" false))
    = medias w_unreadable /\
  files (process_file "/w" "alice" [] true forced 1 w_unreadable (mkFile "/w/b.jpg" "B" false))
    = files w_unreadable /\
  media_ref (ledger (process_file "/w" "alice" [] true forced 1 w_unreadable
                       (mkFile "/w/b.jpg" "B" false))) "/w/b.jpg"
    = media_ref (ledger w_unreadable) "/w/b.jpg".
Proof.
  apply (unreadable_file_left_for_retry "/w" "alice" [] true forced 1 w_unreadable
           (mkFile "/w/b.jpg" "B" false)).
  reflexivity.
Defined.


Lemma settle_only_after_window_witness :
  11 = 11 /\ Debounce.touch_times "/w/a.mp4" burst_pre <> [] /\
  List.last (Debounce.touch_times "/w/a.mp4" burst_pre) 0 + 5 <= 11.
Proof.
  apply (DebounceSafety.settle_only_after_window [] 5 "/w/a.mp4" [] burst_pre 11 11).
  - vm_compute. reflexivity.
  - reflexivity.
  - vm_compute. left. reflexivity.
Defined.

Lemma temp_hidden_and_dirs_never_settle_witness :
  Debounce.count_path "/w/clip.mp4.part"
    (snd (Debounce.run [] 5 []
            [Debounce.Created "/w/clip.mp4.part" false 0; Debounce.Modified "/w/clip.mp4.part" false 3;
             Debounce.Tick 9; Debounce.Tick 20])) = 0%nat.
Proof.
  apply (DebounceSafety.temp_hidden_and_dirs_never_settle [] 5 "/w/clip.mp4.part" []).
  - reflexivity.
  - right. right. left. vm_compute. reflexivity.
Defined.

Lemma extension_needs_dot_in_event_path_witness :
  Debounce.should_process_file ["mp4"] "/w/a.mp4" = false /\
  ext_ok (normalise_extensions (("." +s+ "mp4") :: [])) (mkFile "/w/a.mp4" "X" true)
    = ext_ok (normalise_extensions ("mp4" :: [])) (mkFile "/w/a.mp4" "X" true).
Proof.
  apply (extension_needs_dot_in_event_path ["mp4"] "/w/a.mp4" "mp4" [] (mkFile "/w/a.mp4" "X" true)).
  - discriminate.
  - intros x [<- | []]. exists "m"%char, "p4"%string. split; [reflexivity | unfold dot; discriminate].
Defined.

Lemma test_mode_passes_when_start_fails_witness :
  fst (test_configuration settings_missing env_w (fun _ => true)) = [] /\
  List.length (snd (test_configuration settings_missing env_w (fun _ => true)))
    = List.length (watch_dirs settings_missing) /\
  start settings_missing env_w = (false, []).
Proof.
  apply (test_mode_passes_when_start_fails settings_missing env_w (fun _ => true)).
  - discriminate.
  - discriminate.
  - reflexivity.
  - reflexivity.
  - intros d [<- | []]. left. reflexivity.
Defined.

Lemma test_mode_rejects_what_start_skips_witness :
  In ("Directory is not readable: " +s+ "/locked")
     (fst (test_configuration settings_locked env_locked (fun _ => true))) /\
  fst (start settings_locked env_locked) = true /\ In "/w"%string (snd (start settings_locked env_locked)) /\
  ~ In "/locked"%string (snd (start settings_locked env_locked)).
Proof.
  apply (test_mode_rejects_what_start_skips settings_locked env_locked (fun _ => true) "/locked" "/w").
  - simpl. left. reflexivity.
  - reflexivity.
  - reflexivity.
  - reflexivity.
  - simpl. right. left. reflexivity.
  - reflexivity.
  - reflexivity.
  - discriminate.
  - reflexivity.
  - reflexivity.
Defined.
